(** * react-csv-exporter: the CSV serializer of [src/exportToCSV.ts]

    A shallow embedding of [escapeCSVValue] and [exportToCSV] and of the
    host operations they call, followed by the properties of the
    specification that concern them. *)

From Stdlib Require Import ZArith NArith List Bool Lia.
From Stdlib Require Import Ascii String DecimalString.
From stdpp Require Import base option list gmap.

Import ListNotations.
Local Open Scope N_scope.
Local Open Scope list_scope.

(** ** JavaScript strings

    A JavaScript string is a finite sequence of 16-bit code units.  The
    byte-order mark U+FEFF is one code unit, so the code units are kept as
    numbers rather than as 8-bit [ascii] characters. *)

Module JS.

Abbreviation jsstring := (list N).

(** A literal of the source, read one code unit per ASCII character. *)
Definition lit (s : string) : jsstring :=
  List.map N_of_ascii (list_ascii_of_string s).

Definition QUOTE : N := 34.       (* the double quote, U+0022 *)
Definition COLON : N := 58.       (* the colon, U+003A *)
Definition HYPHEN : N := 45.      (* the hyphen-minus, U+002D *)
Definition LF_CHAR : N := 10.     (* line feed, U+000A *)
Definition CR_CHAR : N := 13.     (* carriage return, U+000D *)
Definition BOM_CHAR : N := 65279. (* the byte-order mark, U+FEFF *)

(** [String.prototype.startsWith], the one-position match that
    [includes] and a literal regular expression try at every index. *)
Fixpoint startsWith (s p : jsstring) {struct p} : bool :=
  match p, s with
  | [], _ => true
  | _ :: _, [] => false
  | a :: p', b :: s' => (a =? b) && startsWith s' p'
  end.

(** [String.prototype.includes]: [p] occurs in [s] at some index; the empty
    string occurs in every string. *)
Fixpoint includes (s p : jsstring) : bool :=
  startsWith s p ||
  match s with
  | [] => false
  | _ :: s' => includes s' p
  end.

(** [s.replace(/c/g, r)] for a pattern that is one literal code unit [c]. *)
Fixpoint replaceAllChar (c : N) (r : jsstring) (s : jsstring) : jsstring :=
  match s with
  | [] => []
  | x :: s' => (if x =? c then r else [x]) ++ replaceAllChar c r s'
  end.

(** [s.replace(/lit$/, '')] for a literal [p] anchored at the end of the
    input (no [m] flag): the match is tried at every index from the left,
    and succeeds where the rest of the input is exactly [p]. *)
Fixpoint replaceSuffix (p : jsstring) (s : jsstring) : jsstring :=
  if bool_decide (s = p) then []
  else match s with
       | [] => []
       | x :: s' => x :: replaceSuffix p s'
       end.

(** [s.slice(0, n)] for a non-negative [n]. *)
Definition slice0 (n : nat) (s : jsstring) : jsstring := firstn n s.

(** [Array.prototype.join] on an array of strings. *)
Fixpoint join (sep : jsstring) (xs : list jsstring) : jsstring :=
  match xs with
  | [] => []
  | [x] => x
  | x :: xs' => x ++ sep ++ join sep xs'
  end.

(** *** Values

    The values a field of a record holds (spec, section 3): strings,
    numbers, booleans, [null] and [undefined]; and, since a property
    access can reach [Object.prototype], objects and functions.

    A number is an integer that a double represents exactly (a safe
    integer, at most 2^53 - 1 in magnitude), [NaN] or an infinity; the
    numbers with a fractional part are left out.  An object or a function
    is carried by the text [String] returns for it, which is all a cell
    shows of it. *)
Definition MAX_SAFE_INTEGER : Z := 9007199254740991.

Definition isSafeInteger (z : Z) : bool :=
  (Z.abs z <=? MAX_SAFE_INTEGER)%Z.

Inductive Value :=
| VNull
| VUndefined
| VString (s : jsstring)
| VNumber (z : Z) (safe : isSafeInteger z = true)
| VNaN
| VInfinity (negative : bool)
| VBoolean (b : bool)
| VObject (text : jsstring).

(** [String(value)]. *)
Definition ToString (v : Value) : jsstring :=
  match v with
  | VNull => lit "null"
  | VUndefined => lit "undefined"
  | VString s => s
  | VNumber z _ => lit (NilZero.string_of_int (Z.to_int z))
  | VNaN => lit "NaN"
  | VInfinity false => lit "Infinity"
  | VInfinity true => lit "-Infinity"
  | VBoolean true => lit "true"
  | VBoolean false => lit "false"
  | VObject text => text
  end.

(** [a ?? b]. *)
Definition nullish (a b : Value) : Value :=
  match a with
  | VNull | VUndefined => b
  | _ => a
  end.

(** *** Objects

    A record is a plain object: its own enumerable string-keyed properties
    in the order [Object.keys] lists them, and [Object.prototype] as its
    prototype. *)
Abbreviation Obj := (list (jsstring * Value)).

(** [Object.keys(o)]. *)
Definition Object_keys (o : Obj) : list jsstring := List.map fst o.

(** The own property of [o] under [key], if there is one. *)
Fixpoint getOwn (o : Obj) (key : jsstring) : option Value :=
  match o with
  | [] => None
  | (k, v) :: o' => if bool_decide (k = key) then Some v else getOwn o' key
  end.

(** The text [String] gives for a built-in function, as V8 and
    JavaScriptCore print it (the white space is implementation-defined),
    and for an ordinary object. *)
Definition nativeFunction (name : jsstring) : Value :=
  VObject (lit "function " ++ name ++ lit "() { [native code] }").

Definition objectObject : jsstring := lit "[object Object]".

(** [Object.prototype], as a plain object reads it: eleven built-in
    functions, and the accessor [__proto__], whose getter returns the
    prototype of the object, [Object.prototype] itself. *)
Definition Object_prototype : Obj :=
  [ (lit "constructor", nativeFunction (lit "Object"));
    (lit "__defineGetter__", nativeFunction (lit "__defineGetter__"));
    (lit "__defineSetter__", nativeFunction (lit "__defineSetter__"));
    (lit "hasOwnProperty", nativeFunction (lit "hasOwnProperty"));
    (lit "__lookupGetter__", nativeFunction (lit "__lookupGetter__"));
    (lit "__lookupSetter__", nativeFunction (lit "__lookupSetter__"));
    (lit "isPrototypeOf", nativeFunction (lit "isPrototypeOf"));
    (lit "propertyIsEnumerable", nativeFunction (lit "propertyIsEnumerable"));
    (lit "toString", nativeFunction (lit "toString"));
    (lit "valueOf", nativeFunction (lit "valueOf"));
    (lit "toLocaleString", nativeFunction (lit "toLocaleString"));
    (lit "__proto__", VObject objectObject) ].

Definition isPrototypeMember (key : jsstring) : bool :=
  bool_decide (is_Some (getOwn Object_prototype key)).

(** [o[key]]: the own property, else the member of [Object.prototype],
    else [undefined]. *)
Definition getProp (o : Obj) (key : jsstring) : Value :=
  match getOwn o key with
  | Some v => v
  | None => default VUndefined (getOwn Object_prototype key)
  end.

(** [Object(value)]: a new object for [null] and [undefined], the object
    itself for an object, and for any other value a wrapper that prints as
    the value does. *)
Definition toObject (v : Value) : Value :=
  match v with
  | VNull | VUndefined => VObject objectObject
  | VObject text => VObject text
  | _ => VObject (ToString v)
  end.

(** What a member of [Object.prototype] does when it is called as a
    method of a plain object [this] with one argument: it returns a value,
    or it calls [this.toString()] and returns a value made from the
    result, or it throws a [TypeError] (as does calling [__proto__], which
    is no function). *)
Inductive NativeCall :=
| Returns (v : Value)
| InvokesToString (k : Value -> Value)
| Throws.

(** The call [this[key](arg)] of an inherited member, [hasOwn] telling
    the own keys of [this]; nothing when [Object.prototype] has no member
    [key]. *)
Definition inheritedCall (hasOwn : jsstring -> bool) (key : jsstring)
    (arg : Value) : option NativeCall :=
  match getOwn Object_prototype key with
  | None => None
  | Some _ =>
    Some (
      if bool_decide (key = lit "constructor") then Returns (toObject arg)
      else if bool_decide (key = lit "toString")
      then Returns (VString objectObject)
      else if bool_decide (key = lit "toLocaleString")
      then InvokesToString (fun r => r)
      else if bool_decide (key = lit "valueOf")
      then InvokesToString (fun r => VObject (ToString r))
      else if bool_decide (key = lit "hasOwnProperty")
              || bool_decide (key = lit "propertyIsEnumerable")
      then Returns (VBoolean (hasOwn (ToString arg)))
      else if bool_decide (key = lit "isPrototypeOf")
      then Returns (VBoolean false)
      else if bool_decide (key = lit "__lookupGetter__")
      then Returns (if negb (hasOwn (ToString arg))
                       && bool_decide (ToString arg = lit "__proto__")
                    then nativeFunction (lit "get __proto__")
                    else VUndefined)
      else if bool_decide (key = lit "__lookupSetter__")
      then Returns (if negb (hasOwn (ToString arg))
                       && bool_decide (ToString arg = lit "__proto__")
                    then nativeFunction (lit "set __proto__")
                    else VUndefined)
      else Throws)
  end.

(** *** Dates

    A [Date] is its time value, the milliseconds since the epoch in UTC.
    The field extractors follow ECMA-262 (Day, TimeWithinDay, YearFromTime,
    MonthFromTime, DateFromTime, HourFromTime, ...); the year, month and day
    are obtained from the day number by the usual era computation of the
    proleptic Gregorian calendar. *)
Module Date.
Local Open Scope Z_scope.

Definition msPerDay : Z := 86400000.
Definition msPerHour : Z := 3600000.
Definition msPerMinute : Z := 60000.
Definition msPerSecond : Z := 1000.

Definition Day (t : Z) : Z := t / msPerDay.
Definition TimeWithinDay (t : Z) : Z := t mod msPerDay.
Definition HourFromTime (t : Z) : Z := (t / msPerHour) mod 24.
Definition MinFromTime (t : Z) : Z := (t / msPerMinute) mod 60.
Definition SecFromTime (t : Z) : Z := (t / msPerSecond) mod 60.
Definition msFromTime (t : Z) : Z := t mod msPerSecond.

(** Year, month (1 to 12) and day of the month (1 to 31) of a day number. *)
Definition civil (day : Z) : Z * Z * Z :=
  let z := day + 719468 in
  let era := z / 146097 in
  let doe := z - era * 146097 in
  let yoe := (doe - doe / 1460 + doe / 36524 - doe / 146096) / 365 in
  let doy := doe - (365 * yoe + yoe / 4 - yoe / 100) in
  let mp := (5 * doy + 2) / 153 in
  let d := doy - (153 * mp + 2) / 5 + 1 in
  let m := if mp <? 10 then mp + 3 else mp - 9 in
  let y := yoe + era * 400 + (if m <=? 2 then 1 else 0) in
  (y, m, d).

Definition YearFromTime (t : Z) : Z := fst (fst (civil (Day t))).
(** ECMA-262 numbers the months from 0; [toISOString] prints month + 1. *)
Definition MonthFromTime (t : Z) : Z := snd (fst (civil (Day t))) - 1.
Definition DateFromTime (t : Z) : Z := snd (civil (Day t)).

(** One decimal digit, as a code unit. *)
Definition digit (z : Z) : N := (48 + Z.to_N (z mod 10))%N.

Definition pad2 (z : Z) : jsstring := [digit (z / 10); digit z].
Definition pad3 (z : Z) : jsstring := digit (z / 100) :: pad2 z.
Definition pad4 (z : Z) : jsstring := digit (z / 1000) :: pad3 z.
Definition pad6 (z : Z) : jsstring :=
  digit (z / 100000) :: digit (z / 10000) :: pad4 z.

(** The year of [Date.prototype.toISOString]: four digits for the years 0
    to 9999, otherwise a sign and six digits. *)
Definition isoYear (y : Z) : jsstring :=
  if (0 <=? y) && (y <=? 9999) then pad4 y
  else (if y <? 0 then HYPHEN else 43%N) :: pad6 (Z.abs y).

(** [Date.prototype.toISOString]: YYYY-MM-DDTHH:mm:ss.sssZ. *)
Definition toISOString (t : Z) : jsstring :=
  isoYear (YearFromTime t) ++ [HYPHEN] ++ pad2 (MonthFromTime t + 1)
  ++ [HYPHEN] ++ pad2 (DateFromTime t) ++ lit "T" ++ pad2 (HourFromTime t)
  ++ [COLON] ++ pad2 (MinFromTime t) ++ [COLON] ++ pad2 (SecFromTime t)
  ++ lit "." ++ pad3 (msFromTime t) ++ lit "Z".

End Date.

End JS.

Import JS.

(** ** [escapeCSVValue] (exportToCSV.ts, lines 21-33) *)

Definition escapeCSVValue (value : Value) (quoteValues : bool)
    (delimiter : jsstring) : jsstring :=
  match value with
  | VNull | VUndefined => []
  | _ =>
    let stringValue := ToString value in
    if quoteValues
       || includes stringValue delimiter
       || includes stringValue [QUOTE]
       || includes stringValue [LF_CHAR]
    then [QUOTE] ++ replaceAllChar QUOTE [QUOTE; QUOTE] stringValue ++ [QUOTE]
    else stringValue
  end.

(** ** The options of [exportToCSV] (exportToCSV.ts, lines 1-19)

    Every property but [data] is optional; an absent property is [None].
    [data] is an [option] too, since the function tests it for absence. *)

Inductive Newline := LF | CRLF.

Definition newlineString (n : Newline) : jsstring :=
  match n with
  | LF => [LF_CHAR]
  | CRLF => [CR_CHAR; LF_CHAR]
  end.

(** A lifecycle callback is opaque to the exporter; the model keeps its
    name and records each call. *)
Abbreviation Callback := jsstring.

Record CSVExportOptions := {
  data : option (list Obj);
  filename : option jsstring;
  headers : option (list jsstring);
  labels : option (list jsstring);
  includeBOM : option bool;
  delimiter : option jsstring;
  formatters : option (gmap jsstring (Value -> Value));
  quoteValues : option bool;
  addTimestamp : option bool;
  newline : option Newline;
  onExportStart : option Callback;
  onExportComplete : option Callback;
  prependRows : option (list (list jsstring));
  appendRows : option (list (list jsstring));
  encoding : option jsstring;
  useKeysAsHeader : option bool;
  includeHeader : option bool
}.

(** ** The host: blobs, object URLs, the document and the clock *)

Record Blob := { blobParts : list jsstring; blobType : jsstring }.

Abbreviation URL := nat.

Record Element := {
  tagName : jsstring;
  href : option URL;
  attributes : gmap jsstring jsstring
}.

Inductive Event :=
| Called (c : Callback)
| BlobCreated (b : Blob)
| ObjectURLCreated (b : Blob) (u : URL)
| ElementCreated (tag : jsstring)
| ChildAppended (e : Element)
| Clicked (e : Element)
| ChildRemoved (e : Element)
| ObjectURLRevoked (u : URL).

Record World := {
  clock : Z;            (* the time value [new Date()] reads *)
  nextURL : URL;        (* the next object URL the host hands out *)
  trace : list Event    (* what has happened so far, oldest first *)
}.

(** Host operations thread the world. *)
Definition M (A : Type) : Type := World -> A * World.

Definition ret {A} (a : A) : M A := fun w => (a, w).
Definition bind {A B} (m : M A) (k : A -> M B) : M B :=
  fun w => let (a, w') := m w in k a w'.

Notation "x <- m ;; k" := (bind m (fun x => k))
  (at level 100, m at next level, right associativity).
Notation "m ;;; k" := (bind m (fun _ => k))
  (at level 100, right associativity).

Definition emit (e : Event) : M unit :=
  fun w => (tt, {| clock := clock w; nextURL := nextURL w;
                   trace := trace w ++ [e] |}).

(** [cb?.()]. *)
Definition callOptional (cb : option Callback) : M unit :=
  match cb with
  | Some c => emit (Called c)
  | None => ret tt
  end.

(** [new Date()]. *)
Definition newDate : M Z := fun w => (clock w, w).

(** [new Blob(parts, {type})]. *)
Definition newBlob (parts : list jsstring) (type : jsstring) : M Blob :=
  let b := {| blobParts := parts; blobType := type |} in
  emit (BlobCreated b) ;;; ret b.

(** [URL.createObjectURL(blob)]. *)
Definition createObjectURL (b : Blob) : M URL :=
  fun w =>
    let u := nextURL w in
    (u, {| clock := clock w; nextURL := S u;
           trace := trace w ++ [ObjectURLCreated b u] |}).

(** [document.createElement(tag)]. *)
Definition createElement (tag : jsstring) : M Element :=
  emit (ElementCreated tag) ;;;
  ret {| tagName := tag; href := None; attributes := ∅ |}.

(** [link.href = url] and [link.setAttribute(name, value)]. *)
Definition setHref (e : Element) (u : URL) : Element :=
  {| tagName := tagName e; href := Some u; attributes := attributes e |}.
Definition setAttribute (e : Element) (name value : jsstring) : Element :=
  {| tagName := tagName e; href := href e;
     attributes := <[name := value]> (attributes e) |}.

(** ** [exportToCSV] (exportToCSV.ts, lines 35-97)

    The constants of the function body, each under its own name and as a
    function of the options. *)

(** What [formatters[key]?.(raw)] gives when the table has no own entry
    for [key]: [undefined] when [Object.prototype] has no such member,
    else the result of the inherited member called on the table.  There
    [this.toString()] is the own formatter registered under [toString],
    called without argument, or the inherited one.  Where the call throws,
    the exception aborts the export; exceptions are outside this model, as
    they are for a formatter that throws, and the model carries on as if
    the table had no entry; [formatterThrows] below tells where. *)
Definition callInherited (formatters : gmap jsstring (Value -> Value))
    (key : jsstring) (raw : Value) : Value :=
  match inheritedCall (fun k => bool_decide (is_Some (formatters !! k)))
                      key raw with
  | None => VUndefined
  | Some (Returns v) => v
  | Some (InvokesToString k) =>
    k (match formatters !! lit "toString" with
       | Some f => f VUndefined
       | None => VString objectObject
       end)
  | Some Throws => VUndefined
  end.

(** Whether [formatters[key]?.(raw)] throws for want of a callable
    member: the table has no own entry for [key], and the inherited member
    is [__proto__], which is no function, or [__defineGetter__] or
    [__defineSetter__], which reject the missing second argument. *)
Definition formatterThrows {F : Type} (formatters : gmap jsstring F)
    (key : jsstring) : bool :=
  match formatters !! key with
  | Some _ => false
  | None =>
    match inheritedCall (fun k => bool_decide (is_Some (formatters !! k)))
                        key VUndefined with
    | Some Throws => true
    | _ => false
    end
  end.

(** [formatters[key]?.(raw) ?? raw]. *)
Definition format (formatters : gmap jsstring (Value -> Value))
    (key : jsstring) (raw : Value) : Value :=
  nullish (match formatters !! key with
           | Some f => f raw
           | None => callInherited formatters key raw
           end) raw.

(** [keys.map(String)]. *)
Definition mapString (keys : list jsstring) : list jsstring :=
  List.map (fun k => ToString (VString k)) keys.

Section Body.
Variable o : CSVExportOptions.

(* the destructured parameters with their defaults *)
Let filename := default (lit "export.csv") (filename o).
Let headers := headers o.
Let labels := labels o.
Let includeBOM := default false (includeBOM o).
Let delimiter := default (lit ",") (delimiter o).
Let formatters := default ∅ (formatters o).
Let quoteValues := default true (quoteValues o).
Let addTimestamp := default false (addTimestamp o).
Let newline := newlineString (default LF (newline o)).
Let prependRows := default [] (prependRows o).
Let appendRows := default [] (appendRows o).
Let encoding := default (lit "utf-8") (encoding o).
Let useKeysAsHeader := default false (useKeysAsHeader o).
Let includeHeader := default true (includeHeader o).

(** line 58 *)
Definition keys (first : Obj) : list jsstring :=
  match headers with
  | Some h => h
  | None => Object_keys first
  end.

(** line 59 *)
Definition headerRow (first : Obj) : list jsstring :=
  if useKeysAsHeader then mapString (keys first)
  else match labels with
       | Some l => l
       | None => mapString (keys first)
       end.

(** lines 63-67, the cell of [row] under [key] *)
Definition cell (row : Obj) (key : jsstring) : jsstring :=
  let raw := getProp row key in
  let formatted := format formatters key raw in
  escapeCSVValue formatted quoteValues delimiter.

(** lines 61-69 *)
Definition csvRows (rows : list Obj) (first : Obj) : list jsstring :=
  List.map (fun row => join delimiter (List.map (cell row) (keys first)))
           rows.

(** lines 71-76 *)
Definition contentRows (rows : list Obj) (first : Obj) : list jsstring :=
  List.map (join delimiter) prependRows
  ++ (if includeHeader then [join delimiter (headerRow first)] else [])
  ++ csvRows rows first
  ++ List.map (join delimiter) appendRows.

(** line 78 *)
Definition content (rows : list Obj) (first : Obj) : jsstring :=
  join newline (contentRows rows first).

(** line 80 *)
Definition finalCsv (rows : list Obj) (first : Obj) : jsstring :=
  (if includeBOM then [BOM_CHAR] else []) ++ content rows first.

(** lines 81-83; the clock is read only when a timestamp is asked for *)
Definition finalFilename : M jsstring :=
  if addTimestamp then
    now <- newDate ;;
    ret (replaceSuffix (lit ".csv") filename ++ lit "-"
         ++ replaceAllChar COLON (lit "-")
              (slice0 19 (Date.toISOString now))
         ++ lit ".csv")
  else ret filename.

Definition exportToCSV : M unit :=
  match data o with
  | None | Some [] => ret tt                                (* line 54 *)
  | Some ((first :: _) as rows) =>
    callOptional (onExportStart o) ;;;                       (* line 56 *)
    let finalCsv := finalCsv rows first in
    finalFilename <- finalFilename ;;
    blob <- newBlob [finalCsv] (lit "text/csv;charset=" ++ encoding) ;;
    url <- createObjectURL blob ;;
    link <- createElement (lit "a") ;;
    let link := setHref link url in
    let link := setAttribute link (lit "download") finalFilename in
    emit (ChildAppended link) ;;;
    emit (Clicked link) ;;;
    emit (ChildRemoved link) ;;;
    emit (ObjectURLRevoked url) ;;;
    callOptional (onExportComplete o)                        (* line 96 *)
  end.
End Body.

(** [useCSVExporter] (useCSVExporter.ts): the hook returns a function that
    forwards its argument to [exportToCSV]. *)
Definition useCSVExporter : CSVExportOptions -> M unit :=
  fun options => exportToCSV options.

(** ** Notions of the specification

    The words the specification uses, defined on their own so that the
    code can be compared with them. *)

(** [p] occurs in [s]: the string contains it. *)
Definition contains (s p : jsstring) : Prop :=
  exists a b, s = a ++ p ++ b.

(** Wrapped in double quotes, with every embedded double quote doubled. *)
Definition quoted (s : jsstring) : jsstring :=
  QUOTE :: List.concat
             (List.map (fun c => if c =? QUOTE then [QUOTE; QUOTE] else [c]) s)
        ++ [QUOTE].

Definition isNullish (v : Value) : bool :=
  match v with
  | VNull | VUndefined => true
  | _ => false
  end.

(** The quoting rule as the specification words it for one value and one
    configuration: quoted exactly when quoting is forced or the
    stringified value holds the delimiter, a quote or a newline. *)
Definition quoting_rule (v : Value) (quoteValues : bool)
    (delimiter : jsstring) : Prop :=
  escapeCSVValue v quoteValues delimiter = quoted (ToString v)
  <-> (quoteValues = true
       \/ contains (ToString v) delimiter
       \/ contains (ToString v) [QUOTE]
       \/ contains (ToString v) [LF_CHAR]).

(** The null rule as the specification words it for one field of one
    record: a value that is null or undefined before or after formatting
    gives the empty cell. *)
Definition null_renders_empty (o : CSVExportOptions) (row : Obj)
    (key : jsstring) : Prop :=
  isNullish (getProp row key) = true
  \/ isNullish (format (default ∅ (formatters o)) key (getProp row key)) = true
  -> cell o row key = [].

(** The label rule as the specification words it: a supplied label list
    shorter than the header descriptors gives way to the stringified
    descriptors. *)
Definition short_labels_fall_back (o : CSVExportOptions) (first : Obj)
    : Prop :=
  forall l, labels o = Some l ->
    (length l < length (keys o first))%nat ->
    default false (useKeysAsHeader o) = false ->
    headerRow o first = mapString (keys o first).

(** Unescaping, in the words of the round-trip property: strip the
    surrounding quotes, then replace each doubled quote by a single one. *)
Definition stripQuotes (s : jsstring) : jsstring :=
  match s with
  | [] => []
  | a :: t =>
    match rev t with
    | b :: r => if (a =? QUOTE) && (b =? QUOTE) then rev r else s
    | [] => s
    end
  end.

Fixpoint undouble (s : jsstring) : jsstring :=
  match s with
  | [] => []
  | a :: t =>
    match t with
    | b :: s' =>
      if (a =? QUOTE) && (b =? QUOTE) then QUOTE :: undouble s'
      else a :: undouble t
    | [] => [a]
    end
  end.

Definition unescape (s : jsstring) : jsstring := undouble (stripQuotes s).

(** The round trip as the specification words it for one value and one
    configuration: if the stringified value holds the delimiter, a quote
    or a newline, unescaping the escaped cell gives the stringified value
    back. *)
Definition round_trip (v : Value) (quoteValues : bool)
    (delimiter : jsstring) : Prop :=
  contains (ToString v) delimiter
  \/ contains (ToString v) [QUOTE]
  \/ contains (ToString v) [LF_CHAR]
  -> unescape (escapeCSVValue v quoteValues delimiter) = ToString v.


(** A trailing suffix removed, if present. *)
Definition endsWith (s p : jsstring) : bool := startsWith (rev s) (rev p).
Definition removeTrailing (p s : jsstring) : jsstring :=
  if endsWith s p then firstn (length s - length p) s else s.

(** The ISO stamp truncated to seconds: what comes before the fraction. *)
Fixpoint beforeFraction (s : jsstring) : jsstring :=
  match s with
  | [] => []
  | c :: s' => if c =? 46 then [] else c :: beforeFraction s'
  end.

(** The timestamp token: the stamp truncated to seconds, colons replaced
    by hyphens. *)
Definition timestampToken (t : Z) : jsstring :=
  List.map (fun c => if c =? COLON then HYPHEN else c)
           (beforeFraction (Date.toISOString t)).

(** The decorated filename of the specification (section 4.4). *)
Definition timestamped (filename : jsstring) (t : Z) : jsstring :=
  removeTrailing (lit ".csv") filename ++ lit "-" ++ timestampToken t
  ++ lit ".csv".

(** The options with their defaults, as the parameter list destructures
    them (lines 36-52). *)
Definition delimiterOf (o : CSVExportOptions) : jsstring :=
  default (lit ",") (delimiter o).

(** The events of an optional callback. *)
Definition callEvents (cb : option Callback) : list Event :=
  match cb with
  | Some c => [Called c]
  | None => []
  end.

(** The blob and the link of one export, and the events of its delivery. *)
Definition blobOf (o : CSVExportOptions) (rows : list Obj) (first : Obj)
    : Blob :=
  {| blobParts := [finalCsv o rows first];
     blobType := lit "text/csv;charset=" ++ default (lit "utf-8") (encoding o) |}.
Definition linkOf (o : CSVExportOptions) (w : World) : Element :=
  {| tagName := lit "a"; href := Some (nextURL w);
     attributes := <[lit "download" := fst (finalFilename o w)]> ∅ |}.
Definition deliveryEvents (o : CSVExportOptions) (rows : list Obj)
    (first : Obj) (w : World) : list Event :=
  [ BlobCreated (blobOf o rows first);
    ObjectURLCreated (blobOf o rows first) (nextURL w);
    ElementCreated (lit "a");
    ChildAppended (linkOf o w);
    Clicked (linkOf o w);
    ChildRemoved (linkOf o w);
    ObjectURLRevoked (nextURL w) ].

(** What one call adds to the trace. *)
Definition emitted (m : M unit) (w : World) : list Event :=
  skipn (length (trace w)) (trace (snd (m w))).

(** The CSV texts handed to [Blob], and the names under which a clicked
    link saves its target. *)
Definition csvTexts (tr : list Event) : list (list jsstring) :=
  List.concat (List.map (fun e => match e with
                                  | BlobCreated b => [blobParts b]
                                  | _ => []
                                  end) tr).
Definition savedNames (tr : list Event) : list (option jsstring) :=
  List.concat (List.map (fun e => match e with
                                  | Clicked l => [attributes l !! lit "download"]
                                  | _ => []
                                  end) tr).

(** An options object with only [data] present. *)
Definition onlyData (d : option (list Obj)) : CSVExportOptions :=
  {| data := d; filename := None; headers := None; labels := None;
     includeBOM := None; delimiter := None; formatters := None;
     quoteValues := None; addTimestamp := None; newline := None;
     onExportStart := None; onExportComplete := None; prependRows := None;
     appendRows := None; encoding := None; useKeysAsHeader := None;
     includeHeader := None |}.

(** ** [exportToCSV] with user code that has effects

    A formatter or a callback is a JavaScript function: besides its
    result it can read and write state that outlives the call (variables
    it closes over).  The module below embeds lines 54-96 once more with
    that state, [U], threaded through every call of user code, in the
    order in which the source makes the calls: the start callback, then
    the formatters record by record and, within a record, selector by
    selector, then the completion callback.  The records and the options
    are values here: user code does not modify them during a call. *)
Module Effectful.
Section UserState.
Variable U : Type.

(** A formatter takes the raw value; a callback takes nothing. *)
Definition Formatter : Type := Value -> U -> Value * U.
Definition UserCallback : Type := U -> U.

Record Options := {
  data : option (list Obj);
  filename : option jsstring;
  headers : option (list jsstring);
  labels : option (list jsstring);
  includeBOM : option bool;
  delimiter : option jsstring;
  formatters : option (gmap jsstring Formatter);
  quoteValues : option bool;
  addTimestamp : option bool;
  newline : option Newline;
  onExportStart : option UserCallback;
  onExportComplete : option UserCallback;
  prependRows : option (list (list jsstring));
  appendRows : option (list (list jsstring));
  encoding : option jsstring;
  useKeysAsHeader : option bool;
  includeHeader : option bool
}.

(** Computations over the user state and the host. *)
Definition E (A : Type) : Type := U * World -> A * (U * World).

Definition eret {A} (a : A) : E A := fun s => (a, s).
Definition ebind {A B} (m : E A) (k : A -> E B) : E B :=
  fun s => let (a, s') := m s in k a s'.

Notation "x <~ m ;; k" := (ebind m (fun x => k))
  (at level 100, m at next level, right associativity).

(** A host operation, which leaves the user state alone. *)
Definition host {A} (m : M A) : E A :=
  fun s => let (a, w') := m (snd s) in (a, (fst s, w')).

(** A call of user code with its result. *)
Definition user {A} (f : U -> A * U) : E A :=
  fun s => let (a, u') := f (fst s) in (a, (u', snd s)).

(** [cb?.()]: the call is recorded under the name of the option. *)
Definition callOptional (name : jsstring) (cb : option UserCallback)
    : E unit :=
  match cb with
  | Some c => _ <~ host (emit (Called name)) ;; user (fun u => (tt, c u))
  | None => eret tt
  end.

(** [formatters[key]?.(raw)]: the own formatter, else the inherited member
    of [Object.prototype] called on the table, else [undefined]. *)
Definition callFormatter (formatters : gmap jsstring Formatter)
    (key : jsstring) (raw : Value) : E Value :=
  match formatters !! key with
  | Some f => user (f raw)
  | None =>
    match inheritedCall (fun k => bool_decide (is_Some (formatters !! k)))
                        key raw with
    | None => eret VUndefined
    | Some (Returns v) => eret v
    | Some (InvokesToString k) =>
      match formatters !! lit "toString" with
      | Some f => r <~ user (f VUndefined) ;; eret (k r)
      | None => eret (k (VString objectObject))
      end
    | Some Throws => eret VUndefined
    end
  end.

(** [xs.map(f)], the calls made from left to right. *)
Fixpoint mapE {A B} (f : A -> E B) (xs : list A) : E (list B) :=
  match xs with
  | [] => eret []
  | x :: xs' => y <~ f x ;; ys <~ mapE f xs' ;; eret (y :: ys)
  end.

Definition exportToCSV (o : Options) : E unit :=
  let filename := default (lit "export.csv") (filename o) in
  let headers := headers o in
  let labels := labels o in
  let includeBOM := default false (includeBOM o) in
  let delimiter := default (lit ",") (delimiter o) in
  let formatters := default ∅ (formatters o) in
  let quoteValues := default true (quoteValues o) in
  let addTimestamp := default false (addTimestamp o) in
  let newline := newlineString (default LF (newline o)) in
  let prependRows := default [] (prependRows o) in
  let appendRows := default [] (appendRows o) in
  let encoding := default (lit "utf-8") (encoding o) in
  let useKeysAsHeader := default false (useKeysAsHeader o) in
  let includeHeader := default true (includeHeader o) in
  match data o with
  | None | Some [] => eret tt                                (* line 54 *)
  | Some ((first :: _) as rows) =>
    _ <~ callOptional (lit "onExportStart") (onExportStart o) ;;
    let keys := match headers with
                | Some h => h
                | None => Object_keys first
                end in
    let headerRow := if useKeysAsHeader then mapString keys
                     else match labels with
                          | Some l => l
                          | None => mapString keys
                          end in
    csvRows <~ mapE (fun row =>
                 cells <~ mapE (fun key =>
                            let raw := getProp row key in
                            called <~ callFormatter formatters key raw ;;
                            let formatted := nullish called raw in
                            eret (escapeCSVValue formatted quoteValues
                                                 delimiter)) keys ;;
                 eret (join delimiter cells)) rows ;;
    let contentRows :=
      List.map (join delimiter) prependRows
      ++ (if includeHeader then [join delimiter headerRow] else [])
      ++ csvRows
      ++ List.map (join delimiter) appendRows in
    let content := join newline contentRows in
    let finalCsv := (if includeBOM then [BOM_CHAR] else []) ++ content in
    finalFilename <~ host (if addTimestamp then
                             now <- newDate ;;
                             ret (replaceSuffix (lit ".csv") filename
                                  ++ lit "-"
                                  ++ replaceAllChar COLON (lit "-")
                                       (slice0 19 (Date.toISOString now))
                                  ++ lit ".csv")
                           else ret filename) ;;
    blob <~ host (newBlob [finalCsv] (lit "text/csv;charset=" ++ encoding)) ;;
    url <~ host (createObjectURL blob) ;;
    link <~ host (createElement (lit "a")) ;;
    let link := setHref link url in
    let link := setAttribute link (lit "download") finalFilename in
    _ <~ host (emit (ChildAppended link)) ;;
    _ <~ host (emit (Clicked link)) ;;
    _ <~ host (emit (ChildRemoved link)) ;;
    _ <~ host (emit (ObjectURLRevoked url)) ;;
    callOptional (lit "onExportComplete") (onExportComplete o)
  end.

(** What one call adds to the trace. *)
Definition emitted (o : Options) (u : U) (w : World) : list Event :=
  skipn (length (trace w)) (trace (snd (snd (exportToCSV o (u, w))))).

(** The user state and the world one call leaves. *)
Definition stateAfter (o : Options) (u : U) (w : World) : U :=
  fst (snd (exportToCSV o (u, w))).
Definition worldAfter (o : Options) (u : U) (w : World) : World :=
  snd (snd (exportToCSV o (u, w))).

(** A formatter is pure when its result depends on its argument only and
    it leaves the state as it is. *)
Definition PureFormatter (f : Formatter) : Prop :=
  exists g : Value -> Value, forall v u, f v u = (g v, u).

Definition PureFormatters (o : Options) : Prop :=
  forall key f, default ∅ (formatters o) !! key = Some f -> PureFormatter f.

(** Determinism as the specification words it, for two calls with the
    same options at the same clock instant: the same CSV text and the
    same file name. *)
Definition same_output (o : Options) (u1 u2 : U) (w1 w2 : World) : Prop :=
  clock w1 = clock w2 ->
  csvTexts (emitted o u1 w1) = csvTexts (emitted o u2 w2)
  /\ savedNames (emitted o u1 w1) = savedNames (emitted o u2 w2).

End UserState.
End Effectful.

(** The options without the effects: each formatter read as the function
    it computes in the state [u0], each callback as its name. *)
Definition purified {U : Type} (o : Effectful.Options U) (u0 : U)
    : CSVExportOptions :=
  {| data := Effectful.data U o;
     filename := Effectful.filename U o;
     headers := Effectful.headers U o;
     labels := Effectful.labels U o;
     includeBOM := Effectful.includeBOM U o;
     delimiter := Effectful.delimiter U o;
     formatters :=
       option_map (fmap (M := gmap jsstring) (fun f v => fst (f v u0)))
                  (Effectful.formatters U o);
     quoteValues := Effectful.quoteValues U o;
     addTimestamp := Effectful.addTimestamp U o;
     newline := Effectful.newline U o;
     onExportStart :=
       match Effectful.onExportStart U o with
       | Some _ => Some (lit "onExportStart")
       | None => None
       end;
     onExportComplete :=
       match Effectful.onExportComplete U o with
       | Some _ => Some (lit "onExportComplete")
       | None => None
       end;
     prependRows := Effectful.prependRows U o;
     appendRows := Effectful.appendRows U o;
     encoding := Effectful.encoding U o;
     useKeysAsHeader := Effectful.useKeysAsHeader U o;
     includeHeader := Effectful.includeHeader U o |}.

(** ** A reader of one row, and the host seen through the trace

    The notions below serve the properties that go beyond single cells:
    a reader that splits one row back into its fields, and a replay of
    the trace against the object URLs and the links the host holds. *)







(** The number of double quotes in a string. *)
Definition quoteCount (s : jsstring) : nat := count_occ N.eq_dec s QUOTE.

(** What the host holds: the object URLs that are live and the links
    attached to the document body. *)
Record Held := { liveURLs : list URL; attachedLinks : list Element }.

#[local] Instance Element_eq_dec : EqDecision Element.
Proof. solve_decision. Defined.

(** One event against what the host holds.  A click is in order only on
    an attached link whose target is a live object URL, and only an
    attached link can be removed; otherwise there is no next state. *)
Definition holdStep (h : Held) (e : Event) : option Held :=
  match e with
  | ObjectURLCreated _ u =>
    Some {| liveURLs := u :: liveURLs h; attachedLinks := attachedLinks h |}
  | ObjectURLRevoked u =>
    Some {| liveURLs := List.filter (fun x => negb (Nat.eqb x u)) (liveURLs h);
            attachedLinks := attachedLinks h |}
  | ChildAppended l =>
    Some {| liveURLs := liveURLs h; attachedLinks := l :: attachedLinks h |}
  | ChildRemoved l =>
    if bool_decide (l ∈ attachedLinks h)
    then Some {| liveURLs := liveURLs h;
                 attachedLinks :=
                   List.filter (fun x => negb (bool_decide (x = l)))
                               (attachedLinks h) |}
    else None
  | Clicked l =>
    if bool_decide (l ∈ attachedLinks h)
       && match href l with
          | Some u => bool_decide (u ∈ liveURLs h)
          | None => false
          end
    then Some h else None
  | Called _ | BlobCreated _ | ElementCreated _ => Some h
  end.

Fixpoint replay (h : Held) (tr : list Event) : option Held :=
  match tr with
  | [] => Some h
  | e :: tr' =>
    match holdStep h e with
    | Some h' => replay h' tr'
    | None => None
    end
  end.


(** ** Sample inputs, after the test suite *)

Definition sampleData : list Obj :=
  [ [(lit "name", VString (lit "John Doe")); (lit "age", VNumber 30 eq_refl);
     (lit "email", VString (lit "john@example.com"))];
    [(lit "name", VString (lit "Jane Smith")); (lit "age", VNumber 25 eq_refl);
     (lit "email", VString (lit "jane@example.com"))] ].

Definition dataWithNulls : list Obj :=
  [ [(lit "name", VString (lit "John")); (lit "age", VNull);
     (lit "email", VUndefined)];
    [(lit "name", VNull); (lit "age", VNumber 25 eq_refl);
     (lit "email", VString (lit "jane@example.com"))] ].

(** The formatter [(value) => `${value} years old`] of the test suite. *)
Definition yearsOld (value : Value) : Value :=
  VString (ToString value ++ lit " years old").

Definition optionsWithAgeFormatter : CSVExportOptions :=
  {| data := Some dataWithNulls; filename := None; headers := None;
     labels := None; includeBOM := None; delimiter := None;
     formatters := Some {[ lit "age" := yearsOld ]}; quoteValues := None;
     addTimestamp := None; newline := None; onExportStart := None;
     onExportComplete := None; prependRows := None; appendRows := None;
     encoding := None; useKeysAsHeader := None; includeHeader := None |}.

Definition optionsWithShortLabels : CSVExportOptions :=
  {| data := Some sampleData; filename := None;
     headers := Some [lit "name"; lit "age"];
     labels := Some [lit "Full Name"]; includeBOM := None; delimiter := None;
     formatters := None; quoteValues := None; addTimestamp := None;
     newline := None; onExportStart := None; onExportComplete := None;
     prependRows := None; appendRows := None; encoding := None;
     useKeysAsHeader := None; includeHeader := None |}.

(** The headers and labels of the test suite, one label per header. *)
Definition optionsWithFullLabels : CSVExportOptions :=
  {| data := Some sampleData; filename := None;
     headers := Some [lit "name"; lit "age"];
     labels := Some [lit "Full Name"; lit "Age"]; includeBOM := None;
     delimiter := None; formatters := None; quoteValues := None;
     addTimestamp := None; newline := None; onExportStart := None;
     onExportComplete := None; prependRows := None; appendRows := None;
     encoding := None; useKeysAsHeader := None; includeHeader := None |}.

Definition optionsWithTimestamp : CSVExportOptions :=
  {| data := Some sampleData; filename := Some (lit "test.csv");
     headers := None; labels := None; includeBOM := None; delimiter := None;
     formatters := None; quoteValues := None; addTimestamp := Some true;
     newline := None; onExportStart := None; onExportComplete := None;
     prependRows := None; appendRows := None; encoding := None;
     useKeysAsHeader := None; includeHeader := None |}.

(** The same, the file name given without its extension. *)
Definition optionsWithTimestampNoExtension : CSVExportOptions :=
  {| data := Some sampleData; filename := Some (lit "test"); headers := None;
     labels := None; includeBOM := None; delimiter := None;
     formatters := None; quoteValues := None; addTimestamp := Some true;
     newline := None; onExportStart := None; onExportComplete := None;
     prependRows := None; appendRows := None; encoding := None;
     useKeysAsHeader := None; includeHeader := None |}.

Definition optionsWithExtraRows : CSVExportOptions :=
  {| data := Some sampleData; filename := None; headers := None;
     labels := None; includeBOM := None; delimiter := None;
     formatters := None; quoteValues := None; addTimestamp := None;
     newline := None; onExportStart := Some (lit "start");
     onExportComplete := Some (lit "complete");
     prependRows := Some [[lit "Title"]; []]; appendRows := None;
     encoding := None; useKeysAsHeader := None; includeHeader := None |}.

(** Callbacks supplied, but no record. *)
Definition optionsWithExtraRows_noData : CSVExportOptions :=
  {| data := Some []; filename := None; headers := None; labels := None;
     includeBOM := None; delimiter := None; formatters := None;
     quoteValues := None; addTimestamp := None; newline := None;
     onExportStart := Some (lit "start");
     onExportComplete := Some (lit "complete");
     prependRows := Some [[lit "Title"]; []]; appendRows := None;
     encoding := None; useKeysAsHeader := None; includeHeader := None |}.

Definition optionsUsingKeys : CSVExportOptions :=
  {| data := Some sampleData; filename := None; headers := None;
     labels := Some [lit "Full Name"; lit "Age"; lit "Email"];
     includeBOM := None; delimiter := None; formatters := None;
     quoteValues := None; addTimestamp := None; newline := None;
     onExportStart := None; onExportComplete := None; prependRows := None;
     appendRows := None; encoding := None; useKeysAsHeader := Some true;
     includeHeader := None |}.

(** A formatter that keeps a count between calls, as
    [() => '#'.repeat(n++)] does with a variable [n] it closes over, and
    options that register it for [age]. *)
Definition countingFormatter : Effectful.Formatter nat :=
  fun _ n => (VString (List.repeat 35 n), S n).

Definition countingOptions : Effectful.Options nat :=
  {| Effectful.data := Some sampleData;
     Effectful.filename := None;
     Effectful.headers := None;
     Effectful.labels := None;
     Effectful.includeBOM := None;
     Effectful.delimiter := None;
     Effectful.formatters := Some {[ lit "age" := countingFormatter ]};
     Effectful.quoteValues := None;
     Effectful.addTimestamp := None;
     Effectful.newline := None;
     Effectful.onExportStart := None;
     Effectful.onExportComplete := None;
     Effectful.prependRows := None;
     Effectful.appendRows := None;
     Effectful.encoding := None;
     Effectful.useKeysAsHeader := None;
     Effectful.includeHeader := None |}.

(** The formatter of the test suite, which has no effect, and a start
    callback that counts the exports. *)
Definition pureOptions : Effectful.Options nat :=
  {| Effectful.data := Some sampleData;
     Effectful.filename := Some (lit "test.csv");
     Effectful.headers := None;
     Effectful.labels := None;
     Effectful.includeBOM := None;
     Effectful.delimiter := None;
     Effectful.formatters :=
       Some {[ lit "age" := fun v (n : nat) => (yearsOld v, n) ]};
     Effectful.quoteValues := None;
     Effectful.addTimestamp := Some true;
     Effectful.newline := None;
     Effectful.onExportStart := Some S;
     Effectful.onExportComplete := None;
     Effectful.prependRows := None;
     Effectful.appendRows := None;
     Effectful.encoding := None;
     Effectful.useKeysAsHeader := None;
     Effectful.includeHeader := None |}.

(** The instant 2023-12-25T10:30:45.123Z of the test suite, and the first
    instant of the year 10000. *)
Definition christmas2023 : Z := 1703500245123.
Definition year10000 : Z := 253402300800000.

Definition worldAt (t : Z) : World :=
  {| clock := t; nextURL := 0; trace := [] |}.

(** * Properties *)

(** ** Strings *)

Lemma startsWith_spec (s p : jsstring) :
  startsWith s p = true <-> exists r, s = p ++ r.
Proof.
  revert s. induction p as [|a p IH]; intros s; simpl.
  - split; [intros _; by exists s | reflexivity].
  - destruct s as [|b s].
    + split; [done | intros [r Hr]; discriminate Hr].
    + rewrite andb_true_iff, N.eqb_eq, IH. split.
      * intros [-> [r ->]]. by exists r.
      * intros [r Hr]. injection Hr as -> ->. eauto.
Qed.

Lemma includes_spec (s p : jsstring) :
  includes s p = true <-> contains s p.
Proof.
  unfold contains. induction s as [|x s IH].
  - simpl. rewrite orb_false_r, startsWith_spec. split.
    + intros [r Hr]. by exists [], r.
    + intros [a [b Hab]]. destruct a; [|discriminate Hab].
      exists b. exact Hab.
  - cbn [includes]. rewrite orb_true_iff, IH, startsWith_spec. split.
    + intros [[r Hr] | [a [b Hab]]].
      * by exists [], r.
      * exists (x :: a), b. by rewrite Hab.
    + intros [a [b Hab]]. destruct a as [|y a].
      * left. by exists b.
      * right. injection Hab as _ Hab. by exists a, b.
Qed.

Lemma contains_one (s : jsstring) (c : N) : contains s [c] <-> In c s.
Proof.
  unfold contains. split.
  - intros [a [b ->]]. apply in_or_app. right. by left.
  - intros H. apply in_split in H as [a [b ->]]. by exists a, b.
Qed.

Lemma replaceAllChar_quoted (s : jsstring) :
  [QUOTE] ++ replaceAllChar QUOTE [QUOTE; QUOTE] s ++ [QUOTE] = quoted s.
Proof.
  unfold quoted. simpl. do 2 f_equal.
  induction s as [|x s IH]; [done|]. simpl. by rewrite IH.
Qed.

Lemma quoted_length (s : jsstring) : (length s + 2 <= length (quoted s))%nat.
Proof.
  unfold quoted. simpl. rewrite length_app. simpl.
  induction s as [|x s IH]; simpl; [lia|].
  rewrite length_app. destruct (x =? QUOTE); simpl; lia.
Qed.

Lemma undouble_cons2 (a b : N) (s : jsstring) :
  undouble (a :: b :: s)
  = if (a =? QUOTE) && (b =? QUOTE) then QUOTE :: undouble s
    else a :: undouble (b :: s).
Proof. reflexivity. Qed.

Lemma undouble_replaceAllChar (s : jsstring) :
  undouble (replaceAllChar QUOTE [QUOTE; QUOTE] s) = s.
Proof.
  induction s as [|x s IH]; [done|].
  cbn [replaceAllChar]. destruct (x =? QUOTE) eqn:Hx.
  - apply N.eqb_eq in Hx as ->. cbn. by rewrite IH.
  - cbn [app]. revert IH.
    destruct (replaceAllChar QUOTE [QUOTE; QUOTE] s) as [|b r] eqn:Hr.
    + intros <-. done.
    + intros IH. rewrite undouble_cons2, Hx. cbn [andb]. by rewrite IH.
Qed.

Lemma stripQuotes_wrap (s : jsstring) :
  stripQuotes ([QUOTE] ++ s ++ [QUOTE]) = s.
Proof.
  cbn [app stripQuotes]. rewrite rev_app_distr. cbn.
  apply rev_involutive.
Qed.

Example escape_quotes :
  escapeCSVValue (VString (lit "He said " ++ [QUOTE] ++ lit "Hello" ++ [QUOTE]))
                 true (lit ",")
  = [QUOTE] ++ lit "He said " ++ [QUOTE; QUOTE] ++ lit "Hello"
    ++ [QUOTE; QUOTE; QUOTE].
Proof. vm_compute. reflexivity. Qed.

(** ** The escaper *)

Lemma escapeCSVValue_nullish (v : Value) (q : bool) (d : jsstring) :
  isNullish v = true -> escapeCSVValue v q d = [].
Proof. by destruct v. Qed.

Lemma escapeCSVValue_stringified (v : Value) (q : bool) (d : jsstring) :
  isNullish v = false ->
  escapeCSVValue v q d
  = if q || includes (ToString v) d || includes (ToString v) [QUOTE]
       || includes (ToString v) [LF_CHAR]
    then quoted (ToString v) else ToString v.
Proof.
  intros Hv. rewrite <- replaceAllChar_quoted.
  destruct v; try discriminate Hv; reflexivity.
Qed.

Lemma quoted_neq (s : jsstring) : s <> quoted s.
Proof.
  intros H. pose proof (quoted_length s) as Hl. rewrite <- H in Hl. lia.
Qed.

Lemma must_quote_iff (q : bool) (s d : jsstring) :
  q || includes s d || includes s [QUOTE] || includes s [LF_CHAR] = true
  <-> (q = true \/ contains s d \/ contains s [QUOTE]
       \/ contains s [LF_CHAR]).
Proof. rewrite !orb_true_iff, !includes_spec. tauto. Qed.

(** C1 (as stated, refuted): under forced quoting a [null] value gives the
    empty cell, not a quoted one, so the rule does not hold for every
    value. *)
Lemma C1_null_not_quoted : ~ quoting_rule VNull true (lit ",").
Proof.
  intros [_ H]. specialize (H (or_introl eq_refl)).
  vm_compute in H. discriminate H.
Qed.

(** C1 (amended): for every value other than [null] and [undefined] and
    every configuration, the cell is the stringified value wrapped in
    double quotes with every embedded double quote doubled if and only if
    quoting is forced on, or the stringified value contains the delimiter,
    a double quote or a newline; otherwise it is the stringified value
    unchanged.  In particular, with [quoteValues] false a value that
    contains the delimiter is still quoted.  A [null] or [undefined] value
    gives the empty cell whatever the configuration. *)
Theorem C1_quoting_rule (v : Value) (q : bool) (d : jsstring) :
  (isNullish v = false ->
   quoting_rule v q d
   /\ (escapeCSVValue v q d = quoted (ToString v)
       \/ escapeCSVValue v q d = ToString v)
   /\ (contains (ToString v) d ->
       escapeCSVValue v false d = quoted (ToString v)))
  /\ (isNullish v = true -> escapeCSVValue v q d = []).
Proof.
  split; [|apply escapeCSVValue_nullish].
  intros Hv. unfold quoting_rule.
  rewrite !(escapeCSVValue_stringified _ _ _ Hv), <- must_quote_iff.
  split; [|split].
  - destruct (q || _ || _ || _); split; try done.
    intros H. by apply quoted_neq in H.
  - destruct (q || _ || _ || _); auto.
  - intros Hd. apply includes_spec in Hd. rewrite Hd. reflexivity.
Qed.

Lemma C1_quoting_rule_witness :
  quoting_rule (VString (lit "John, Doe")) false (lit ",")
  /\ escapeCSVValue (VString (lit "John, Doe")) false (lit ",")
     = quoted (lit "John, Doe")
  /\ escapeCSVValue VNull true (lit ",") = []
  /\ escapeCSVValue VUndefined false (lit ";") = [].
Proof.
  pose proof (proj1 (C1_quoting_rule (VString (lit "John, Doe")) false
                       (lit ",")) eq_refl) as [H1 [_ H3]].
  split; [exact H1|]. split.
  - apply H3. by exists (lit "John"), (lit " Doe").
  - split.
    + exact (proj2 (C1_quoting_rule VNull true (lit ",")) eq_refl).
    + exact (proj2 (C1_quoting_rule VUndefined false (lit ";")) eq_refl).
Defined.

(** C8 (as stated, refuted): [String(null)] is the text [null], which
    contains the delimiter [l]; the escaped cell of [null] is empty and
    unescapes to the empty string, not to [null]. *)
Lemma C8_null_not_restored :
  ~ round_trip VNull true (lit "l")
  /\ unescape (escapeCSVValue VNull true (lit "l")) = [].
Proof.
  split; [|reflexivity].
  intros H. assert (contains (ToString VNull) (lit "l")) as Hc
    by (by exists (lit "nu"), (lit "l")).
  specialize (H (or_introl Hc)). vm_compute in H. discriminate H.
Qed.

(** C8 (amended): for every value other than [null] and [undefined], if
    the stringified value contains the delimiter, a double quote or a
    newline, then unescaping the escaped cell (stripping the surrounding
    quotes and un-doubling the quotes inside) gives back the stringified
    value. *)
Theorem C8_escape_unescape (v : Value) (q : bool) (d : jsstring) :
  isNullish v = false -> round_trip v q d.
Proof.
  intros Hv Hc.
  rewrite (escapeCSVValue_stringified _ _ _ Hv).
  assert (q || includes (ToString v) d || includes (ToString v) [QUOTE]
          || includes (ToString v) [LF_CHAR] = true) as ->
    by (apply must_quote_iff; tauto).
  rewrite <- replaceAllChar_quoted. unfold unescape.
  rewrite stripQuotes_wrap. apply undouble_replaceAllChar.
Qed.

Lemma C8_escape_unescape_witness :
  unescape (escapeCSVValue (VString (lit "a,b" ++ [QUOTE] ++ lit "c"))
                           false (lit ","))
  = lit "a,b" ++ [QUOTE] ++ lit "c".
Proof.
  apply (C8_escape_unescape (VString (lit "a,b" ++ [QUOTE] ++ lit "c"))
           false (lit ",") eq_refl).
  left. by exists (lit "a"), (lit "b" ++ [QUOTE] ++ lit "c").
Defined.

(** ** Cells and the header row *)

Lemma cell_unfold (o : CSVExportOptions) (row : Obj) (key : jsstring) :
  cell o row key
  = escapeCSVValue (format (default ∅ (formatters o)) key (getProp row key))
                   (default true (quoteValues o))
                   (default (lit ",") (delimiter o)).
Proof. reflexivity. Qed.

Lemma keys_unfold (o : CSVExportOptions) (first : Obj) :
  keys o first = default (Object_keys first) (headers o).
Proof. unfold keys. by destruct (headers o). Qed.

Lemma mapString_id (ks : list jsstring) : mapString ks = ks.
Proof.
  unfold mapString. induction ks as [|k ks IH]; [done|].
  simpl. f_equal. exact IH.
Qed.

Lemma getOwn_missing (row : Obj) (key : jsstring) :
  ~ In key (Object_keys row) -> getOwn row key = None.
Proof.
  induction row as [|[k v] row IH]; [done|]. intros Hk. cbn [getOwn].
  rewrite bool_decide_eq_false_2 by (intros ->; apply Hk; by left).
  apply IH. intros H. apply Hk. by right.
Qed.

Lemma getOwn_present (row : Obj) (key : jsstring) (v : Value) :
  NoDup (Object_keys row) -> In (key, v) row -> getOwn row key = Some v.
Proof.
  induction row as [|[k u] row IH]; [done|].
  cbn [Object_keys List.map fst]. intros Hnd [Hin | Hin].
  - injection Hin as -> ->. cbn. by rewrite bool_decide_eq_true_2.
  - apply NoDup_cons in Hnd as [Hk Hnd]. cbn [getOwn].
    rewrite bool_decide_eq_false_2.
    + by apply IH.
    + intros ->. apply Hk. apply list_elem_of_In.
      change key with (fst (key, v)). by apply in_map.
Qed.

Lemma not_member (key : jsstring) :
  isPrototypeMember key = false -> getOwn Object_prototype key = None.
Proof.
  unfold isPrototypeMember. intros H. apply bool_decide_eq_false_1 in H.
  destruct (getOwn Object_prototype key); [|done]. destruct H. eauto.
Qed.

Lemma getProp_missing (row : Obj) (key : jsstring) :
  ~ In key (Object_keys row) -> isPrototypeMember key = false ->
  getProp row key = VUndefined.
Proof.
  intros Hk Hm. unfold getProp.
  by rewrite (getOwn_missing _ _ Hk), (not_member _ Hm).
Qed.

Lemma getProp_present (row : Obj) (key : jsstring) (v : Value) :
  NoDup (Object_keys row) -> In (key, v) row -> getProp row key = v.
Proof.
  intros Hnd Hin. unfold getProp. by rewrite (getOwn_present _ _ _ Hnd Hin).
Qed.

Lemma callInherited_not_member (fs : gmap jsstring (Value -> Value))
    (key : jsstring) (raw : Value) :
  isPrototypeMember key = false -> callInherited fs key raw = VUndefined.
Proof.
  intros Hm. unfold callInherited, inheritedCall.
  by rewrite (not_member _ Hm).
Qed.

Lemma format_own (fs : gmap jsstring (Value -> Value)) (key : jsstring)
    (f : Value -> Value) (raw : Value) :
  fs !! key = Some f -> format fs key raw = nullish (f raw) raw.
Proof. unfold format. by intros ->. Qed.

Lemma format_absent (fs : gmap jsstring (Value -> Value)) (key : jsstring)
    (raw : Value) :
  fs !! key = None -> isPrototypeMember key = false ->
  format fs key raw = raw.
Proof.
  intros Hf Hm. unfold format.
  rewrite Hf, (callInherited_not_member _ _ _ Hm). by destruct raw.
Qed.

Lemma nullish_isNullish (a b : Value) :
  isNullish (nullish a b) = isNullish a && isNullish b.
Proof. by destruct a. Qed.

Lemma nullish_value (a b : Value) :
  isNullish a = false -> nullish a b = a.
Proof. by destruct a. Qed.

(** C10: under forced quoting, which is the default, the empty string is
    rendered as the two quote characters, while [null] and [undefined] are
    rendered as the zero-length cell whatever the quoting flag: the null
    check comes before the quoting rule. *)
Theorem C10_empty_string_vs_null (q : bool) (d : jsstring) :
  escapeCSVValue (VString []) true d = [QUOTE; QUOTE]
  /\ length (escapeCSVValue (VString []) true d) = 2%nat
  /\ escapeCSVValue VNull q d = []
  /\ escapeCSVValue VUndefined q d = []
  /\ length (escapeCSVValue VNull true d) = 0%nat
  /\ length (escapeCSVValue VUndefined true d) = 0%nat.
Proof. repeat split. Qed.

(** C3 (as stated, refuted): with the formatter of the test suite
    registered for [age], the record whose [age] is [null] gets the cell
    holding the text [null years old], not the empty cell. *)
Lemma C3_formatted_null_not_empty :
  ~ null_renders_empty optionsWithAgeFormatter
      [(lit "name", VString (lit "John")); (lit "age", VNull)] (lit "age")
  /\ cell optionsWithAgeFormatter
       [(lit "name", VString (lit "John")); (lit "age", VNull)] (lit "age")
     = [QUOTE] ++ lit "null years old" ++ [QUOTE].
Proof.
  split; [|by vm_compute].
  intros H. specialize (H (or_introl eq_refl)).
  vm_compute in H. discriminate H.
Qed.

(** C3 (amended): for every record, field selector and formatter table,
    the emitted cell is the empty string whenever the formatting step
    ([formatters[key]?.(raw) ?? raw]) does not throw and gives null or
    undefined.  So a null or undefined field gives the empty cell when the
    table has no formatter for the field and the field is not named after
    a member of [Object.prototype] (whose inherited function would be
    called as the formatter), or when the registered formatter returns
    null or undefined for it.  When a registered formatter returns another
    value, the cell is that value escaped, whatever the field holds. *)
Theorem C3_null_cell_empty (o : CSVExportOptions) (row : Obj)
    (key : jsstring) :
  (formatterThrows (default ∅ (formatters o)) key = false ->
   isNullish (format (default ∅ (formatters o)) key (getProp row key)) = true ->
   cell o row key = [])
  /\ (isNullish (getProp row key) = true ->
      default ∅ (formatters o) !! key = None ->
      isPrototypeMember key = false ->
      cell o row key = [])
  /\ (forall f, isNullish (getProp row key) = true ->
      default ∅ (formatters o) !! key = Some f ->
      isNullish (f (getProp row key)) = true ->
      cell o row key = [])
  /\ (forall f, default ∅ (formatters o) !! key = Some f ->
      isNullish (f (getProp row key)) = false ->
      cell o row key
      = escapeCSVValue (f (getProp row key)) (default true (quoteValues o))
                       (default (lit ",") (delimiter o))).
Proof.
  rewrite cell_unfold. split; [|split; [|split]].
  - intros _. apply escapeCSVValue_nullish.
  - intros Hraw Hf Hm. apply escapeCSVValue_nullish.
    by rewrite (format_absent _ _ _ Hf Hm).
  - intros f Hraw Hf Hres. apply escapeCSVValue_nullish.
    by rewrite (format_own _ _ _ _ Hf), nullish_isNullish, Hres, Hraw.
  - intros f Hf Hres.
    by rewrite (format_own _ _ _ _ Hf), (nullish_value _ _ Hres).
Qed.

Lemma C3_null_cell_empty_witness :
  cell (onlyData (Some dataWithNulls))
       [(lit "name", VString (lit "John")); (lit "age", VNull);
        (lit "email", VUndefined)] (lit "email") = []
  /\ cell (onlyData (Some dataWithNulls)) [] (lit "age") = []
  /\ cell optionsWithAgeFormatter [(lit "age", VNull)] (lit "name") = []
  /\ cell optionsWithAgeFormatter [(lit "age", VNull)] (lit "age")
     = escapeCSVValue (yearsOld VNull) true (lit ",").
Proof.
  split; [|split; [|split]].
  - apply (proj1 (C3_null_cell_empty (onlyData (Some dataWithNulls)) _ _));
      reflexivity.
  - apply (proj1 (proj2 (C3_null_cell_empty
                           (onlyData (Some dataWithNulls)) _ _)));
      reflexivity.
  - apply (proj1 (proj2 (C3_null_cell_empty optionsWithAgeFormatter _ _)));
      reflexivity.
  - apply (proj2 (proj2 (proj2 (C3_null_cell_empty optionsWithAgeFormatter
                                  [(lit "age", VNull)] (lit "age"))))
             yearsOld); reflexivity.
Defined.

(** C6: with [useKeysAsHeader] enabled the header row is the stringified
    field-selector list (the explicit headers if supplied, else the keys of
    the first record) whatever labels are supplied; with it disabled or
    absent, the header row is the label list if one is supplied, else the
    stringified field selectors. *)
Theorem C6_header_row (o : CSVExportOptions) (first : Obj) :
  keys o first = default (Object_keys first) (headers o)
  /\ (useKeysAsHeader o = Some true ->
      headerRow o first
      = List.map (fun k => ToString (VString k)) (keys o first))
  /\ (useKeysAsHeader o <> Some true ->
      forall l, labels o = Some l -> headerRow o first = l)
  /\ (useKeysAsHeader o <> Some true ->
      labels o = None ->
      headerRow o first
      = List.map (fun k => ToString (VString k)) (keys o first)).
Proof.
  split; [apply keys_unfold|]. unfold headerRow, mapString.
  split; [|split].
  - by intros ->.
  - intros Hk l ->. by destruct (useKeysAsHeader o) as [[]|].
  - intros Hk ->. by destruct (useKeysAsHeader o) as [[]|].
Qed.

Lemma C6_header_row_witness :
  headerRow optionsUsingKeys
    [(lit "name", VString (lit "John Doe")); (lit "age", VNumber 30 eq_refl);
     (lit "email", VString (lit "john@example.com"))]
  = [lit "name"; lit "age"; lit "email"]
  /\ headerRow optionsWithShortLabels [] = [lit "Full Name"]
  /\ headerRow (onlyData None) [(lit "a", VNull)] = [lit "a"].
Proof.
  split; [|split].
  - rewrite (proj1 (proj2 (C6_header_row optionsUsingKeys _)));
      reflexivity.
  - apply (proj1 (proj2 (proj2 (C6_header_row optionsWithShortLabels []))));
      [discriminate|reflexivity].
  - apply (proj2 (proj2 (proj2 (C6_header_row (onlyData None)
                                  [(lit "a", VNull)]))));
      [discriminate|reflexivity].
Defined.

(** C7 (as stated, refuted): with the headers [name], [age] and the single
    label [Full Name], the header row is the one label, not the two
    stringified headers. *)
Lemma C7_short_labels_used :
  ~ short_labels_fall_back optionsWithShortLabels []
  /\ headerRow optionsWithShortLabels [] = [lit "Full Name"].
Proof.
  split; [|reflexivity].
  intros H. specialize (H [lit "Full Name"] eq_refl).
  vm_compute in H. specialize (H (le_n 2) eq_refl). discriminate H.
Qed.

(** C7 (amended): when a label sequence is supplied and [useKeysAsHeader]
    is disabled, the header row is the supplied label sequence as it is,
    whatever its length, so also when it is shorter than the
    header-descriptor sequence; the header row falls back to the
    stringified header descriptors only when no label sequence is
    supplied. *)
Theorem C7_labels_as_supplied (o : CSVExportOptions) (first : Obj)
    (l : list jsstring) :
  default false (useKeysAsHeader o) = false ->
  (labels o = Some l -> headerRow o first = l)
  /\ (labels o = Some l ->
      (length l < length (keys o first))%nat ->
      headerRow o first = l
      /\ (length (headerRow o first) < length (keys o first))%nat)
  /\ (labels o = None -> headerRow o first = mapString (keys o first)).
Proof.
  intros Hk. unfold headerRow. rewrite Hk. split; [|split].
  - by intros ->.
  - intros -> Hlen. by split.
  - by intros ->.
Qed.

Lemma C7_labels_as_supplied_witness :
  headerRow optionsWithShortLabels [] = [lit "Full Name"]
  /\ (length (headerRow optionsWithShortLabels [])
      < length (keys optionsWithShortLabels []))%nat
  /\ headerRow optionsWithFullLabels [] = [lit "Full Name"; lit "Age"]
  /\ headerRow (onlyData None) [(lit "a", VNull)] = mapString [lit "a"].
Proof.
  split; [|split; [|split]].
  - apply (proj1 (proj2 (C7_labels_as_supplied optionsWithShortLabels []
                           [lit "Full Name"] eq_refl)));
      [reflexivity | vm_compute; lia].
  - apply (proj1 (proj2 (C7_labels_as_supplied optionsWithShortLabels []
                           [lit "Full Name"] eq_refl)));
      [reflexivity | vm_compute; lia].
  - apply (proj1 (C7_labels_as_supplied optionsWithFullLabels []
                    [lit "Full Name"; lit "Age"] eq_refl)).
    reflexivity.
  - apply (proj2 (proj2 (C7_labels_as_supplied (onlyData None)
                           [(lit "a", VNull)] [] eq_refl))).
    reflexivity.
Defined.

(** ** The export as a whole *)

Lemma finalFilename_pure (o : CSVExportOptions) (w : World) :
  snd (finalFilename o w) = w.
Proof.
  unfold finalFilename. by destruct (default false (addTimestamp o)).
Qed.

Lemma finalFilename_clock (o : CSVExportOptions) (w1 w2 : World) :
  clock w1 = clock w2 -> fst (finalFilename o w1) = fst (finalFilename o w2).
Proof.
  intros H. unfold finalFilename.
  destruct (default false (addTimestamp o)); [|done].
  unfold bind, newDate, ret. simpl. by rewrite H.
Qed.

Lemma finalFilename_run (o : CSVExportOptions) (w : World) :
  finalFilename o w = (fst (finalFilename o w), w).
Proof.
  rewrite <- (finalFilename_pure o w) at 3. apply surjective_pairing.
Qed.

Lemma skipn_length_app {A} (l k : list A) : skipn (length l) (l ++ k) = k.
Proof. induction l as [|x l IH]; [done|exact IH]. Qed.

(** The one short-circuit: without records the world is left as it is. *)
Lemma exportToCSV_empty (o : CSVExportOptions) (w : World) :
  data o = None \/ data o = Some [] -> exportToCSV o w = (tt, w).
Proof. unfold exportToCSV. by intros [-> | ->]. Qed.

(** With records, one pass: the start callback, the delivery, the
    completion callback. *)
Lemma exportToCSV_nonempty (o : CSVExportOptions) (w : World)
    (first : Obj) (rest : list Obj) :
  data o = Some (first :: rest) ->
  exportToCSV o w
  = (tt, {| clock := clock w; nextURL := S (nextURL w);
            trace := trace w ++ callEvents (onExportStart o)
                     ++ deliveryEvents o (first :: rest) first w
                     ++ callEvents (onExportComplete o) |}).
Proof.
  intros Hd. unfold exportToCSV. rewrite Hd.
  unfold deliveryEvents, linkOf, blobOf, callOptional, callEvents, newBlob,
    createObjectURL, createElement, setAttribute, setHref, bind, emit, ret.
  destruct (onExportStart o) as [c1|], (onExportComplete o) as [c2|];
    cbn [fst snd clock nextURL trace tagName href attributes];
    match goal with
    | |- (let (_, _) := finalFilename o ?w' in _) = _ =>
      rewrite (finalFilename_run o w');
      try rewrite (finalFilename_clock o w' w eq_refl)
    end;
    cbn [fst snd clock nextURL trace tagName href attributes];
    rewrite <- ?app_assoc; reflexivity.
Qed.

Lemma emitted_empty (o : CSVExportOptions) (w : World) :
  data o = None \/ data o = Some [] -> emitted (exportToCSV o) w = [].
Proof.
  intros H. unfold emitted. rewrite (exportToCSV_empty _ _ H). simpl.
  rewrite <- (app_nil_r (trace w)) at 2. apply skipn_length_app.
Qed.

Lemma emitted_nonempty (o : CSVExportOptions) (w : World)
    (first : Obj) (rest : list Obj) :
  data o = Some (first :: rest) ->
  emitted (exportToCSV o) w
  = callEvents (onExportStart o)
    ++ deliveryEvents o (first :: rest) first w
    ++ callEvents (onExportComplete o).
Proof.
  intros H. unfold emitted. rewrite (exportToCSV_nonempty _ _ _ _ H).
  apply skipn_length_app.
Qed.

Lemma csvTexts_nonempty (o : CSVExportOptions) (w : World)
    (first : Obj) (rest : list Obj) :
  data o = Some (first :: rest) ->
  csvTexts (emitted (exportToCSV o) w) = [[finalCsv o (first :: rest) first]].
Proof.
  intros H. rewrite (emitted_nonempty _ _ _ _ H).
  by destruct (onExportStart o), (onExportComplete o).
Qed.

Lemma savedNames_nonempty (o : CSVExportOptions) (w : World)
    (first : Obj) (rest : list Obj) :
  data o = Some (first :: rest) ->
  savedNames (emitted (exportToCSV o) w) = [Some (fst (finalFilename o w))].
Proof.
  intros H. rewrite (emitted_nonempty _ _ _ _ H).
  unfold savedNames, deliveryEvents, linkOf.
  destruct (onExportStart o), (onExportComplete o);
    cbn [callEvents app List.map List.concat attributes];
    by rewrite lookup_insert_eq.
Qed.

(** C2: when the record collection is absent or empty the export does
    nothing: the world, and with it the trace, is unchanged, so that no
    callback is called, no blob is built from a CSV text and no link is
    clicked. *)
Theorem C2_empty_is_noop (o : CSVExportOptions) (w : World) :
  data o = None \/ data o = Some [] ->
  exportToCSV o w = (tt, w)
  /\ emitted (exportToCSV o) w = []
  /\ (forall e, In e (emitted (exportToCSV o) w) -> False).
Proof.
  intros H. split; [by apply exportToCSV_empty|].
  rewrite (emitted_empty _ _ H). by split.
Qed.

Lemma C2_empty_is_noop_witness :
  exportToCSV optionsWithExtraRows_noData (worldAt christmas2023)
  = (tt, worldAt christmas2023)
  /\ exportToCSV (onlyData None) (worldAt christmas2023)
     = (tt, worldAt christmas2023).
Proof.
  split.
  - apply (C2_empty_is_noop optionsWithExtraRows_noData). by right.
  - apply (C2_empty_is_noop (onlyData None)). by left.
Defined.









Lemma exportToCSV_clock (o : CSVExportOptions) (w : World) :
  clock (snd (exportToCSV o w)) = clock w.
Proof.
  destruct (data o) as [[|first rest]|] eqn:Hd.
  - rewrite exportToCSV_empty; auto.
  - by rewrite (exportToCSV_nonempty _ _ _ _ Hd).
  - rewrite exportToCSV_empty; auto.
Qed.

(** *** User code with effects *)

Lemma inheritedCall_ext (h1 h2 : jsstring -> bool) (key : jsstring)
    (arg : Value) :
  (forall k, h1 k = h2 k) -> inheritedCall h1 key arg = inheritedCall h2 key arg.
Proof. intros H. unfold inheritedCall. by rewrite (H (ToString arg)). Qed.

Lemma default_formatters_purified (U : Type) (o : Effectful.Options U)
    (u0 : U) :
  default ∅ (formatters (purified o u0))
  = (fun (f : Effectful.Formatter U) v => fst (f v u0))
      <$> default ∅ (Effectful.formatters U o).
Proof.
  unfold purified. cbn [formatters].
  destruct (Effectful.formatters U o); [done|]. cbn. by rewrite fmap_empty.
Qed.

(** A table of pure formatters is called as the table of the functions
    they compute, and the state stays as it is. *)
Lemma callFormatter_pure (U : Type)
    (fs : gmap jsstring (Effectful.Formatter U)) (u0 : U)
    (key : jsstring) (raw : Value) (s : U * World) :
  (forall k f, fs !! k = Some f -> Effectful.PureFormatter U f) ->
  let gs := (fun (f : Effectful.Formatter U) v => fst (f v u0)) <$> fs in
  Effectful.callFormatter U fs key raw s
  = (match gs !! key with
     | Some g => g raw
     | None => callInherited gs key raw
     end, s).
Proof.
  intros Hpure gs. destruct s as [u w].
  assert (forall k f v, fs !! k = Some f ->
            f v u = (fst (f v u0), u)) as Hrun.
  { intros k f v Hk. destruct (Hpure k f Hk) as [g Hg]. by rewrite !Hg. }
  unfold Effectful.callFormatter, callInherited, gs.
  rewrite !lookup_fmap.
  rewrite (inheritedCall_ext
             (fun k => bool_decide (is_Some
                (((fun (f : Effectful.Formatter U) v => fst (f v u0)) <$> fs)
                   !! k)))
             (fun k => bool_decide (is_Some (fs !! k)))).
  2:{ intros k. rewrite lookup_fmap. by destruct (fs !! k). }
  destruct (fs !! key) as [f|] eqn:Hf; cbn [fmap option_fmap option_map].
  - unfold Effectful.user. cbn [fst snd]. by rewrite (Hrun _ _ _ Hf).
  - destruct (inheritedCall _ key raw) as [[v|k|]|]; try reflexivity.
    destruct (fs !! lit "toString") as [f|] eqn:Ht;
      cbn [fmap option_fmap option_map]; [|reflexivity].
    unfold Effectful.ebind, Effectful.user, Effectful.eret. cbn [fst snd].
    by rewrite (Hrun _ _ _ Ht).
Qed.

Lemma mapE_cells_pure (U : Type)
    (fs : gmap jsstring (Effectful.Formatter U)) (u0 : U) (q : bool)
    (d : jsstring) (row : Obj) (ks : list jsstring) (s : U * World) :
  (forall k f, fs !! k = Some f -> Effectful.PureFormatter U f) ->
  Effectful.mapE U
    (fun key =>
       Effectful.ebind U
         (Effectful.callFormatter U fs key (getProp row key))
         (fun called =>
            Effectful.eret U
              (escapeCSVValue (nullish called (getProp row key)) q d)))
    ks s
  = (List.map
       (fun key =>
          escapeCSVValue
            (format ((fun (f : Effectful.Formatter U) v => fst (f v u0))
                       <$> fs) key (getProp row key)) q d) ks, s).
Proof.
  intros Hpure. induction ks as [|key ks IH]; [reflexivity|].
  cbn [Effectful.mapE List.map]. unfold Effectful.ebind at 1 2.
  rewrite (callFormatter_pure U fs u0 key _ s Hpure).
  unfold Effectful.eret at 1. unfold Effectful.ebind at 1.
  rewrite IH. reflexivity.
Qed.

Lemma mapE_rows_pure (U : Type)
    (fs : gmap jsstring (Effectful.Formatter U)) (u0 : U) (q : bool)
    (d : jsstring) (ks : list jsstring) (rows : list Obj) (s : U * World) :
  (forall k f, fs !! k = Some f -> Effectful.PureFormatter U f) ->
  Effectful.mapE U
    (fun row =>
       Effectful.ebind U
         (Effectful.mapE U
            (fun key =>
               Effectful.ebind U
                 (Effectful.callFormatter U fs key (getProp row key))
                 (fun called =>
                    Effectful.eret U
                      (escapeCSVValue (nullish called (getProp row key))
                                      q d)))
            ks)
         (fun cells => Effectful.eret U (join d cells)))
    rows s
  = (List.map
       (fun row =>
          join d (List.map
                    (fun key =>
                       escapeCSVValue
                         (format ((fun (f : Effectful.Formatter U) v =>
                                     fst (f v u0)) <$> fs)
                                 key (getProp row key)) q d) ks)) rows, s).
Proof.
  intros Hpure. induction rows as [|row rows IH]; [reflexivity|].
  cbn [Effectful.mapE List.map]. unfold Effectful.ebind at 1 2.
  rewrite (mapE_cells_pure U fs u0 q d row ks s Hpure).
  unfold Effectful.eret at 1. unfold Effectful.ebind at 1.
  rewrite IH. reflexivity.
Qed.

Lemma callOptional_effectful (U : Type) (name : jsstring)
    (cb : option (Effectful.UserCallback U)) (u : U) (w : World) :
  Effectful.callOptional U name cb (u, w)
  = (tt, (match cb with Some c => c u | None => u end,
          {| clock := clock w; nextURL := nextURL w;
             trace := trace w
                      ++ callEvents (match cb with
                                     | Some _ => Some name
                                     | None => None
                                     end) |})).
Proof.
  destruct cb as [c|]; cbn.
  - reflexivity.
  - rewrite app_nil_r. by destruct w.
Qed.

Lemma exportToCSV_pure_sim (U : Type) (o : Effectful.Options U) (u0 u : U)
    (w : World) :
  Effectful.PureFormatters U o ->
  Effectful.worldAfter U o u w = snd (exportToCSV (purified o u0) w).
Proof.
  intros Hpure. unfold Effectful.worldAfter, Effectful.exportToCSV.
  cbv zeta.
  destruct (Effectful.data U o) as [[|first rest]|] eqn:Hd.
  - rewrite exportToCSV_empty; [done|]. right. exact Hd.
  - assert (data (purified o u0) = Some (first :: rest)) as Hd' by exact Hd.
    rewrite (exportToCSV_nonempty _ _ _ _ Hd').
    unfold Effectful.ebind at 1. rewrite callOptional_effectful.
    unfold Effectful.ebind at 1.
    rewrite (mapE_rows_pure U _ u0 _ _ _ _ _ Hpure).
    unfold deliveryEvents, linkOf, blobOf, finalCsv, content, contentRows,
      csvRows, cell, headerRow, keys, finalFilename.
    rewrite default_formatters_purified.
    unfold Effectful.ebind, Effectful.host, Effectful.eret.
    cbn [purified addTimestamp filename onExportStart onExportComplete
         encoding includeBOM newline delimiter headers labels prependRows
         appendRows useKeysAsHeader includeHeader quoteValues].
    destruct (default false (Effectful.addTimestamp U o));
      unfold newBlob, createObjectURL, createElement, emit, bind, ret, newDate;
      cbn [fst snd clock nextURL trace];
      rewrite callOptional_effectful;
      cbn [fst snd clock nextURL trace];
      unfold setAttribute, setHref;
      cbn [fst snd clock nextURL trace tagName href attributes];
      rewrite <- ?app_assoc; reflexivity.
  - rewrite exportToCSV_empty; [done|]. left. exact Hd.
Qed.

Lemma emitted_effectful (U : Type) (o : Effectful.Options U) (u0 u : U)
    (w : World) :
  Effectful.PureFormatters U o ->
  Effectful.emitted U o u w = emitted (exportToCSV (purified o u0)) w.
Proof.
  intros Hpure. unfold Effectful.emitted, emitted.
  by rewrite <- (exportToCSV_pure_sim U o u0 u w Hpure).
Qed.

Lemma emitted_same_clock (o : CSVExportOptions) (w1 w2 : World) :
  clock w1 = clock w2 ->
  csvTexts (emitted (exportToCSV o) w1)
  = csvTexts (emitted (exportToCSV o) w2)
  /\ savedNames (emitted (exportToCSV o) w1)
     = savedNames (emitted (exportToCSV o) w2).
Proof.
  intros Hc. destruct (data o) as [[|first rest]|] eqn:Hd.
  - rewrite !emitted_empty; auto.
  - rewrite !(csvTexts_nonempty _ _ _ _ Hd), !(savedNames_nonempty _ _ _ _ Hd).
    by rewrite (finalFilename_clock o _ _ Hc).
  - rewrite !emitted_empty; auto.
Qed.

(** C9 (as stated, refuted): a formatter that counts its calls in a
    variable it closes over gives the second export another text than the
    first, with the same options object, the same records and the same
    clock instant. *)
Lemma C9_counting_formatter :
  ~ Effectful.same_output nat countingOptions 0%nat
      (Effectful.stateAfter nat countingOptions 0%nat (worldAt christmas2023))
      (worldAt christmas2023)
      (Effectful.worldAfter nat countingOptions 0%nat (worldAt christmas2023)).
Proof.
  intros H.
  assert (clock (worldAt christmas2023)
          = clock (Effectful.worldAfter nat countingOptions 0%nat
                     (worldAt christmas2023))) as Hc by (by vm_compute).
  destruct (H Hc) as [H1 _]. vm_compute in H1. discriminate H1.
Qed.

(** C9 (amended): when every registered formatter is pure (its result
    depends only on its argument and it changes no state), two calls with
    the same options, and so the same records, at the same clock instant
    hand the same CSV text to the blob and save under the same file name,
    whatever the callbacks do to the state and whatever else differs in
    the states and worlds the calls start from; this holds in particular
    for a second call made right after the first.  Where no selector
    makes the formatter lookup throw, the text and the name are those the
    serializer computes with the functions the formatters compute. *)
Theorem C9_determinism (U : Type) (o : Effectful.Options U) (u1 u2 : U)
    (w1 w2 : World) :
  Effectful.PureFormatters U o ->
  Effectful.same_output U o u1 u2 w1 w2
  /\ Effectful.same_output U o u1 (Effectful.stateAfter U o u1 w1)
       w1 (Effectful.worldAfter U o u1 w1)
  /\ clock (Effectful.worldAfter U o u1 w1) = clock w1
  /\ (forall first rest,
      Effectful.data U o = Some (first :: rest) ->
      (forall key, In key (keys (purified o u1) first) ->
         formatterThrows (default ∅ (Effectful.formatters U o)) key = false) ->
      csvTexts (Effectful.emitted U o u1 w1)
      = [[finalCsv (purified o u1) (first :: rest) first]]
      /\ savedNames (Effectful.emitted U o u1 w1)
         = [Some (fst (finalFilename (purified o u1) w1))]).
Proof.
  intros Hpure. unfold Effectful.same_output.
  split; [|split; [|split]].
  - intros Hc. rewrite !(emitted_effectful U o u1 _ _ Hpure).
    by apply emitted_same_clock.
  - intros Hc. rewrite !(emitted_effectful U o u1 _ _ Hpure).
    by apply emitted_same_clock.
  - rewrite (exportToCSV_pure_sim U o u1 u1 w1 Hpure).
    apply exportToCSV_clock.
  - intros first rest Hd _. rewrite (emitted_effectful U o u1 _ _ Hpure).
    assert (data (purified o u1) = Some (first :: rest)) as Hd' by exact Hd.
    by rewrite (csvTexts_nonempty _ _ _ _ Hd'),
               (savedNames_nonempty _ _ _ _ Hd').
Qed.

Lemma pureOptions_pure : Effectful.PureFormatters nat pureOptions.
Proof.
  intros key f Hf. cbn in Hf.
  apply lookup_singleton_Some in Hf as [_ <-]. by exists yearsOld.
Defined.

Lemma C9_determinism_witness :
  (csvTexts (Effectful.emitted nat pureOptions 0%nat (worldAt christmas2023))
   = csvTexts (Effectful.emitted nat pureOptions 5%nat
                 {| clock := christmas2023; nextURL := 7;
                    trace := [Called (lit "earlier")] |})
   /\ savedNames (Effectful.emitted nat pureOptions 0%nat
                                    (worldAt christmas2023))
      = savedNames (Effectful.emitted nat pureOptions 5%nat
                      {| clock := christmas2023; nextURL := 7;
                         trace := [Called (lit "earlier")] |}))
  /\ savedNames (Effectful.emitted nat pureOptions 0%nat
                                   (worldAt christmas2023))
     = [Some (lit "test-2023-12-25T10-30-45.csv")].
Proof.
  pose proof (C9_determinism nat pureOptions 0%nat 5%nat
                (worldAt christmas2023)
                {| clock := christmas2023; nextURL := 7;
                   trace := [Called (lit "earlier")] |}
                pureOptions_pure) as (H1 & _ & _ & H4).
  split; [exact (H1 eq_refl)|].
  destruct (H4 (hd [] sampleData) (tl sampleData) eq_refl) as [_ Hn].
  - intros key Hk. vm_compute in Hk.
    destruct Hk as [<-|[<-|[<-|[]]]]; reflexivity.
  - rewrite Hn. by vm_compute.
Defined.

(** ** The timestamped file name *)

Lemma replaceSuffix_unfold (p s : jsstring) :
  replaceSuffix p s
  = if bool_decide (s = p) then []
    else match s with
         | [] => []
         | x :: s' => x :: replaceSuffix p s'
         end.
Proof. by destruct s. Qed.

Lemma replaceSuffix_app (p a : jsstring) : replaceSuffix p (a ++ p) = a.
Proof.
  induction a as [|x a IH]; rewrite replaceSuffix_unfold.
  - by rewrite bool_decide_eq_true_2.
  - rewrite bool_decide_eq_false_2.
    + simpl. by rewrite IH.
    + intros H. apply (f_equal length) in H.
      simpl in H. rewrite length_app in H. lia.
Qed.

Lemma replaceSuffix_none (p s : jsstring) :
  (forall a, s <> a ++ p) -> replaceSuffix p s = s.
Proof.
  induction s as [|x s IH]; intros Hs; rewrite replaceSuffix_unfold.
  - by destruct (bool_decide ([] = p)).
  - rewrite bool_decide_eq_false_2 by apply (Hs []).
    f_equal. apply IH. intros a ->. by apply (Hs (x :: a)).
Qed.

Lemma endsWith_spec (s p : jsstring) :
  endsWith s p = true <-> exists a, s = a ++ p.
Proof.
  unfold endsWith. rewrite startsWith_spec. split.
  - intros [r Hr]. exists (rev r).
    rewrite <- (rev_involutive s), Hr, rev_app_distr.
    by rewrite rev_involutive.
  - intros [a ->]. exists (rev a). apply rev_app_distr.
Qed.

Lemma removeTrailing_app (p a : jsstring) : removeTrailing p (a ++ p) = a.
Proof.
  unfold removeTrailing.
  assert (endsWith (a ++ p) p = true) as -> by (apply endsWith_spec; eauto).
  rewrite length_app, Nat.add_sub. apply take_app_length.
Qed.

Lemma removeTrailing_none (p s : jsstring) :
  (forall a, s <> a ++ p) -> removeTrailing p s = s.
Proof.
  intros Hs. unfold removeTrailing.
  destruct (endsWith s p) eqn:He; [|done].
  apply endsWith_spec in He as [a ->]. by destruct (Hs a).
Qed.

(** The anchored regular expression removes a trailing suffix and nothing
    else. *)
Lemma replaceSuffix_removeTrailing (p s : jsstring) :
  replaceSuffix p s = removeTrailing p s.
Proof.
  destruct (endsWith s p) eqn:He.
  - apply endsWith_spec in He as [a ->].
    by rewrite replaceSuffix_app, removeTrailing_app.
  - assert (forall a, s <> a ++ p) as Hs.
    { intros a ->. rewrite (proj2 (endsWith_spec _ _)) in He; eauto.
      discriminate He. }
    by rewrite replaceSuffix_none, removeTrailing_none.
Qed.

Lemma replaceAllChar_map (c r : N) (s : jsstring) :
  replaceAllChar c [r] s = List.map (fun x => if x =? c then r else x) s.
Proof.
  induction s as [|x s IH]; [done|]. simpl. rewrite IH.
  by destruct (x =? c).
Qed.

Lemma digit_range (z : Z) : 48 <= Date.digit z <= 57.
Proof.
  unfold Date.digit.
  pose proof (Z.mod_pos_bound z 10 eq_refl). lia.
Qed.

Lemma digit_not_dot (z : Z) : Date.digit z <> 46.
Proof. pose proof (digit_range z). lia. Qed.

Lemma digit_not_colon (z : Z) : (Date.digit z =? COLON) = false.
Proof. apply N.eqb_neq. pose proof (digit_range z). unfold COLON. lia. Qed.

Lemma beforeFraction_app (a b : jsstring) :
  Forall (fun c => c <> 46) a -> beforeFraction (a ++ 46 :: b) = a.
Proof.
  induction 1 as [|c a Hc _ IH]; simpl.
  - reflexivity.
  - apply N.eqb_neq in Hc. by rewrite Hc, IH.
Qed.

(** The first nineteen code units of the ISO stamp of a four-digit year. *)
Lemma toISOString_seconds (t : Z) :
  (0 <= Date.YearFromTime t <= 9999)%Z ->
  exists a,
    Date.toISOString t = a ++ 46 :: Date.pad3 (Date.msFromTime t) ++ lit "Z"
    /\ a = Date.pad4 (Date.YearFromTime t) ++ [HYPHEN]
           ++ Date.pad2 (Date.MonthFromTime t + 1) ++ [HYPHEN]
           ++ Date.pad2 (Date.DateFromTime t) ++ lit "T"
           ++ Date.pad2 (Date.HourFromTime t) ++ [COLON]
           ++ Date.pad2 (Date.MinFromTime t) ++ [COLON]
           ++ Date.pad2 (Date.SecFromTime t)
    /\ length a = 19%nat
    /\ Forall (fun c => c <> 46) a.
Proof.
  intros Hy. eexists. split; [|split; [reflexivity|split]].
  - unfold Date.toISOString, Date.isoYear.
    replace ((0 <=? Date.YearFromTime t)%Z && (Date.YearFromTime t <=? 9999)%Z)
      with true by (symmetry; apply andb_true_iff; lia).
    rewrite <- !app_assoc. reflexivity.
  - reflexivity.
  - unfold Date.pad4, Date.pad3, Date.pad2.
    repeat (apply Forall_cons; split;
            [first [apply digit_not_dot | by vm_compute]|]).
    apply Forall_nil. done.
Qed.

Lemma finalFilename_timestamp (o : CSVExportOptions) (w : World) :
  addTimestamp o = Some true ->
  fst (finalFilename o w)
  = removeTrailing (lit ".csv") (default (lit "export.csv") (filename o))
    ++ lit "-"
    ++ List.map (fun c => if c =? COLON then HYPHEN else c)
         (slice0 19 (Date.toISOString (clock w)))
    ++ lit ".csv".
Proof.
  intros Ha. unfold finalFilename. rewrite Ha.
  change (default false (Some true)) with true.
  unfold bind, newDate, ret. cbn [fst].
  rewrite replaceSuffix_removeTrailing.
  change (lit "-") with [HYPHEN]. by rewrite replaceAllChar_map.
Qed.

(** C5 (as stated, refuted): at the first instant of the year 10000 the
    ISO stamp carries a sign and six year digits, and its first nineteen
    code units stop at the minutes: the file name loses the seconds that
    the stamp truncated to seconds keeps. *)
Lemma C5_year10000_loses_seconds :
  fst (finalFilename optionsWithTimestamp (worldAt year10000))
  <> timestamped (lit "test.csv") year10000
  /\ fst (finalFilename optionsWithTimestamp (worldAt year10000))
     = lit "test-+010000-01-01T00-00.csv"
  /\ timestamped (lit "test.csv") year10000
     = lit "test-+010000-01-01T00-00-00.csv".
Proof.
  split; [|split]; [|by vm_compute..].
  intros H. vm_compute in H. discriminate H.
Qed.

(** C5 (amended): for every filename and every instant whose UTC year is
    between 0 and 9999, when timestamping is enabled the final filename is
    the configured filename with a trailing [.csv] removed if present,
    then a hyphen, then the instant's ISO stamp truncated to seconds with
    its colons replaced by hyphens (YYYY-MM-DDTHH-mm-ss), then [.csv]. *)
Theorem C5_timestamped_filename (o : CSVExportOptions) (w : World) :
  addTimestamp o = Some true ->
  (0 <= Date.YearFromTime (clock w) <= 9999)%Z ->
  fst (finalFilename o w)
  = timestamped (default (lit "export.csv") (filename o)) (clock w)
  /\ timestampToken (clock w)
     = Date.pad4 (Date.YearFromTime (clock w)) ++ lit "-"
       ++ Date.pad2 (Date.MonthFromTime (clock w) + 1) ++ lit "-"
       ++ Date.pad2 (Date.DateFromTime (clock w)) ++ lit "T"
       ++ Date.pad2 (Date.HourFromTime (clock w)) ++ lit "-"
       ++ Date.pad2 (Date.MinFromTime (clock w)) ++ lit "-"
       ++ Date.pad2 (Date.SecFromTime (clock w))
  /\ (forall base,
      default (lit "export.csv") (filename o) = base ++ lit ".csv" ->
      fst (finalFilename o w)
      = base ++ lit "-" ++ timestampToken (clock w) ++ lit ".csv")
  /\ ((forall base,
       default (lit "export.csv") (filename o) <> base ++ lit ".csv") ->
      fst (finalFilename o w)
      = default (lit "export.csv") (filename o) ++ lit "-"
        ++ timestampToken (clock w) ++ lit ".csv").
Proof.
  intros Ha Hy.
  destruct (toISOString_seconds (clock w) Hy) as (a & Hiso & Hshape & Hlen & Hdot).
  assert (slice0 19 (Date.toISOString (clock w)) = a) as Hslice.
  { unfold slice0. rewrite Hiso, <- Hlen. apply take_app_length. }
  assert (timestampToken (clock w)
          = List.map (fun c => if c =? COLON then HYPHEN else c) a) as Htok.
  { unfold timestampToken. by rewrite Hiso, beforeFraction_app. }
  assert (fst (finalFilename o w)
          = timestamped (default (lit "export.csv") (filename o)) (clock w))
    as Hfinal.
  { rewrite (finalFilename_timestamp _ _ Ha), Hslice.
    unfold timestamped. by rewrite Htok. }
  split; [exact Hfinal|]. split; [|split].
  - rewrite Htok, Hshape. unfold Date.pad4, Date.pad3, Date.pad2.
    change (lit "T") with [84]. change (lit "-") with [HYPHEN].
    cbn [List.map app]. rewrite !digit_not_colon. reflexivity.
  - intros base Hb. rewrite Hfinal. unfold timestamped.
    by rewrite Hb, removeTrailing_app.
  - intros Hb. rewrite Hfinal. unfold timestamped.
    by rewrite removeTrailing_none.
Qed.

Lemma C5_timestamped_filename_witness :
  fst (finalFilename optionsWithTimestamp (worldAt christmas2023))
  = lit "test-2023-12-25T10-30-45.csv".
Proof.
  assert (0 <= Date.YearFromTime (clock (worldAt christmas2023)) <= 9999)%Z
    as Hy by (vm_compute; split; discriminate).
  rewrite (proj1 (C5_timestamped_filename optionsWithTimestamp
                    (worldAt christmas2023) eq_refl Hy)).
  vm_compute. reflexivity.
Defined.

(** * Further properties of the code *)

(** ** The escaper, beyond the quoting rule *)

Lemma unescape_quoted (s : jsstring) : unescape (quoted s) = s.
Proof.
  rewrite <- replaceAllChar_quoted. unfold unescape.
  rewrite stripQuotes_wrap. apply undouble_replaceAllChar.
Qed.

Lemma includes_head (c : N) (t : jsstring) : includes (c :: t) [c] = true.
Proof. cbn. by rewrite N.eqb_refl. Qed.

Lemma includes_empty (s : jsstring) : includes s [] = true.
Proof. by destruct s. Qed.

Lemma includes_one_false (s : jsstring) (c : N) :
  includes s [c] = false -> ~ In c s.
Proof.
  intros Hf Hin. apply contains_one, includes_spec in Hin. congruence.
Qed.

Lemma quoteCount_app (a b : jsstring) :
  quoteCount (a ++ b) = (quoteCount a + quoteCount b)%nat.
Proof. apply count_occ_app. Qed.

Lemma quoteCount_doubled (s : jsstring) :
  quoteCount (replaceAllChar QUOTE [QUOTE; QUOTE] s) = (2 * quoteCount s)%nat.
Proof.
  induction s as [|x s IH]; [done|].
  cbn [replaceAllChar]. rewrite quoteCount_app, IH.
  unfold quoteCount at 3. cbn [count_occ].
  destruct (N.eqb_spec x QUOTE) as [->|Hx].
  - destruct (N.eq_dec QUOTE QUOTE); [|done]. cbn. unfold quoteCount. lia.
  - destruct (N.eq_dec x QUOTE) as [->|_]; [done|].
    unfold quoteCount at 1. cbn [count_occ].
    destruct (N.eq_dec x QUOTE) as [->|_]; [done|]. unfold quoteCount. lia.
Qed.

Lemma quoteCount_quoted (s : jsstring) :
  quoteCount (quoted s) = (2 * (1 + quoteCount s))%nat.
Proof.
  rewrite <- replaceAllChar_quoted, !quoteCount_app, quoteCount_doubled.
  cbn. lia.
Qed.

(** X1: the escaper loses nothing: for a fixed configuration, two values
    other than null and undefined that give the same cell have the same
    stringified value. *)
Theorem X1_escape_injective (v1 v2 : Value) (q : bool) (d : jsstring) :
  isNullish v1 = false -> isNullish v2 = false ->
  escapeCSVValue v1 q d = escapeCSVValue v2 q d ->
  ToString v1 = ToString v2.
Proof.
  intros H1 H2.
  rewrite !escapeCSVValue_stringified by done.
  destruct (q || includes (ToString v1) d || includes (ToString v1) [QUOTE]
            || includes (ToString v1) [LF_CHAR]) eqn:E1,
           (q || includes (ToString v2) d || includes (ToString v2) [QUOTE]
            || includes (ToString v2) [LF_CHAR]) eqn:E2.
  - intros H. apply (f_equal unescape) in H.
    by rewrite !unescape_quoted in H.
  - intros H. rewrite <- H in E2. unfold quoted in E2.
    rewrite includes_head in E2. by rewrite !orb_true_r in E2.
  - intros H. rewrite H in E1. unfold quoted in E1.
    rewrite includes_head in E1. by rewrite !orb_true_r in E1.
  - done.
Qed.

Lemma X1_escape_injective_witness :
  ToString (VNumber 30 eq_refl) = ToString (VString (lit "30")).
Proof.
  apply (X1_escape_injective (VNumber 30 eq_refl) (VString (lit "30")) true
           (lit ","));
    reflexivity.
Defined.

(** X2: under forced quoting the empty cell stands for null or undefined
    and for nothing else: the cell is empty exactly when the value is null
    or undefined.  Without forced quoting the empty string gives the empty
    cell too, unless the delimiter is empty. *)
Theorem X2_empty_cell_means_null (v : Value) (d : jsstring) :
  (escapeCSVValue v true d = [] <-> isNullish v = true)
  /\ (d <> [] -> escapeCSVValue (VString []) false d = []).
Proof.
  split.
  - split; [|apply escapeCSVValue_nullish].
    destruct (isNullish v) eqn:Hv; [done|].
    rewrite (escapeCSVValue_stringified _ _ _ Hv). discriminate.
  - intros Hd. destruct d; [done | reflexivity].
Qed.

Lemma X2_empty_cell_means_null_witness :
  escapeCSVValue (VString []) false (lit ",") = []
  /\ escapeCSVValue VUndefined true (lit ",") = [].
Proof.
  split.
  - apply (proj2 (X2_empty_cell_means_null VNull (lit ","))). discriminate.
  - apply (proj1 (X2_empty_cell_means_null VUndefined (lit ","))).
    reflexivity.
Defined.

(** X3: every cell holds an even number of double quotes, whatever the
    value and the configuration: none in an unquoted cell, and in a quoted
    cell two for the wrapping and two for each quote of the value. *)
Theorem X3_quotes_balanced (v : Value) (q : bool) (d : jsstring) :
  Nat.Even (quoteCount (escapeCSVValue v q d))
  /\ (isNullish v = false ->
      quoteCount (escapeCSVValue v true d)
      = (2 * (1 + quoteCount (ToString v)))%nat).
Proof.
  split.
  - destruct (isNullish v) eqn:Hv.
    + rewrite escapeCSVValue_nullish by done. by exists 0%nat.
    + rewrite (escapeCSVValue_stringified _ _ _ Hv).
      destruct (q || _ || includes (ToString v) [QUOTE] || _) eqn:E.
      * rewrite quoteCount_quoted. by eexists.
      * apply orb_false_iff in E as [E _].
        apply orb_false_iff in E as [_ E].
        apply includes_one_false in E.
        exists 0%nat. by apply count_occ_not_In.
  - intros Hv. rewrite (escapeCSVValue_stringified _ _ _ Hv).
    apply quoteCount_quoted.
Qed.

Lemma X3_quotes_balanced_witness :
  quoteCount (escapeCSVValue (VString (lit "x" ++ [QUOTE])) true (lit ","))
  = 4%nat.
Proof.
  rewrite (proj2 (X3_quotes_balanced (VString (lit "x" ++ [QUOTE]))
                    true (lit ",")) eq_refl).
  reflexivity.
Defined.

(** X5: with the empty delimiter every value other than null and undefined
    is quoted, also with [quoteValues] false: the empty string occurs in
    every string. *)
Theorem X5_empty_delimiter_quotes_all (v : Value) (q : bool) :
  isNullish v = false ->
  escapeCSVValue v q [] = quoted (ToString v).
Proof.
  intros Hv. rewrite (escapeCSVValue_stringified _ _ _ Hv).
  by rewrite includes_empty, orb_true_r.
Qed.

Lemma X5_empty_delimiter_quotes_all_witness :
  escapeCSVValue (VNumber 30 eq_refl) false [] = quoted (lit "30").
Proof.
  apply (X5_empty_delimiter_quotes_all (VNumber 30 eq_refl) false).
  reflexivity.
Defined.

(** ** Rows read back *)








(** ** Fields and formatters *)

(** X6: reading a field whose name is no member of [Object.prototype] and
    for which no formatter is registered.  A record whose keys are
    distinct gives, under each such key, the value stored there, escaped;
    a record that lacks the field gives the empty cell, as a later record
    does for a field only the first record has. *)
Theorem X6_field_lookup (o : CSVExportOptions) (row : Obj) (key : jsstring) :
  default ∅ (formatters o) !! key = None ->
  isPrototypeMember key = false ->
  (forall v, NoDup (Object_keys row) -> In (key, v) row ->
     cell o row key
     = escapeCSVValue v (default true (quoteValues o)) (delimiterOf o))
  /\ (~ In key (Object_keys row) -> cell o row key = []).
Proof.
  intros Hf Hm. rewrite cell_unfold, (format_absent _ _ _ Hf Hm). split.
  - intros v Hnd Hin. by rewrite (getProp_present _ _ _ Hnd Hin).
  - intros Hk. by rewrite (getProp_missing _ _ Hk Hm).
Qed.

Lemma X6_field_lookup_witness :
  cell (onlyData None) [(lit "name", VString (lit "Jane"))] (lit "age") = []
  /\ cell (onlyData None) [(lit "name", VString (lit "Jane"))] (lit "name")
     = escapeCSVValue (VString (lit "Jane")) true (lit ",").
Proof.
  split.
  - apply (proj2 (X6_field_lookup (onlyData None)
                    [(lit "name", VString (lit "Jane"))] (lit "age")
                    eq_refl eq_refl)).
    intros [H|[]]. discriminate H.
  - apply (proj1 (X6_field_lookup (onlyData None)
                    [(lit "name", VString (lit "Jane"))] (lit "name")
                    eq_refl eq_refl)); [|by left].
    apply NoDup_cons. split; [apply not_elem_of_nil | apply NoDup_nil_2].
Defined.



(** X8: a registered formatter decides the cell unless it returns null or
    undefined, in which case the raw value is rendered as if no formatter
    were registered: a formatter cannot blank a cell by returning null. *)
Theorem X8_formatter_result_or_raw (o : CSVExportOptions) (row : Obj)
    (key : jsstring) (f : Value -> Value) :
  default ∅ (formatters o) !! key = Some f ->
  cell o row key
  = escapeCSVValue (if isNullish (f (getProp row key))
                    then getProp row key else f (getProp row key))
                   (default true (quoteValues o)) (delimiterOf o).
Proof.
  intros Hf. rewrite cell_unfold. unfold format. rewrite Hf.
  by destruct (f (getProp row key)).
Qed.

Lemma X8_formatter_result_or_raw_witness :
  cell optionsWithAgeFormatter [(lit "age", VNumber 30 eq_refl)] (lit "age")
  = [QUOTE] ++ lit "30 years old" ++ [QUOTE].
Proof.
  rewrite (X8_formatter_result_or_raw optionsWithAgeFormatter _ _ yearsOld);
    by vm_compute.
Defined.

(** ** The delivery, step by step *)

Lemma replay_app (h : Held) (a b : list Event) :
  replay h (a ++ b)
  = match replay h a with
    | Some h' => replay h' b
    | None => None
    end.
Proof.
  revert h. induction a as [|e a IH]; intros h; [done|].
  cbn [app replay]. by destruct (holdStep h e).
Qed.

Lemma replay_callEvents (h : Held) (cb : option Callback) :
  replay h (callEvents cb) = Some h.
Proof. by destruct cb. Qed.

Lemma filter_keeps_all {A} (f : A -> bool) (l : list A) :
  (forall x, In x l -> f x = true) -> List.filter f l = l.
Proof.
  induction l as [|x l IH]; [done|]. intros H. cbn.
  rewrite (H x) by (by left). f_equal. apply IH. intros y Hy. apply H.
  by right.
Qed.

Lemma replay_delivery (o : CSVExportOptions) (rows : list Obj) (first : Obj)
    (w : World) (h : Held) :
  nextURL w ∉ liveURLs h -> linkOf o w ∉ attachedLinks h ->
  replay h (deliveryEvents o rows first w) = Some h.
Proof.
  intros Hu Hl. destruct h as [live att]. cbn in Hu, Hl.
  unfold deliveryEvents.
  cbn [replay holdStep liveURLs attachedLinks].
  rewrite (bool_decide_eq_true_2 (linkOf o w ∈ linkOf o w :: att))
    by apply list_elem_of_here.
  change (href (linkOf o w)) with (Some (nextURL w)). cbn [andb].
  rewrite (bool_decide_eq_true_2 (nextURL w ∈ nextURL w :: live))
    by apply list_elem_of_here.
  cbn [liveURLs attachedLinks].
  rewrite (bool_decide_eq_true_2 (linkOf o w ∈ linkOf o w :: att))
    by apply list_elem_of_here.
  cbn [liveURLs attachedLinks List.filter].
  rewrite (bool_decide_eq_true_2 (linkOf o w = linkOf o w)) by done.
  rewrite Nat.eqb_refl. cbn [negb].
  rewrite !filter_keeps_all; [done| |].
  - intros x Hx. apply negb_true_iff, bool_decide_eq_false_2. intros ->.
    by apply Hl, list_elem_of_In.
  - intros x Hx. apply negb_true_iff, Nat.eqb_neq. intros ->.
    by apply Hu, list_elem_of_In.
Qed.

(** X10: the export leaves nothing behind.  Replayed against what the host
    holds, the events of one call are in order (the link is clicked while
    it is attached and its object URL is live, and only an attached link
    is removed) and end where they started: the object URL is revoked and
    the link is removed again, for every options object, with or without
    records. *)
Theorem X10_nothing_left_behind (o : CSVExportOptions) (w : World)
    (h : Held) :
  nextURL w ∉ liveURLs h -> linkOf o w ∉ attachedLinks h ->
  replay h (emitted (exportToCSV o) w) = Some h.
Proof.
  intros Hu Hl. destruct (data o) as [[|first rest]|] eqn:Hd.
  - rewrite emitted_empty; auto.
  - rewrite (emitted_nonempty _ _ _ _ Hd).
    rewrite replay_app, replay_callEvents. cbv iota beta.
    rewrite replay_app, replay_delivery by done.
    apply replay_callEvents.
  - rewrite emitted_empty; auto.
Qed.

Lemma X10_nothing_left_behind_witness :
  replay {| liveURLs := [3%nat]; attachedLinks := [] |}
         (emitted (exportToCSV optionsWithExtraRows)
                  {| clock := christmas2023; nextURL := 4;
                     trace := [Called (lit "earlier")] |})
  = Some {| liveURLs := [3%nat]; attachedLinks := [] |}.
Proof.
  apply (X10_nothing_left_behind optionsWithExtraRows).
  - cbn. intros H. apply list_elem_of_In in H as [H|[]]. discriminate H.
  - apply not_elem_of_nil.
Defined.





(** ** The file name, with and without a timestamp *)

Lemma In_firstn {A} (n : nat) (l : list A) (x : A) :
  In x (firstn n l) -> In x l.
Proof.
  revert l. induction n as [|n IH]; intros [|y l]; try done.
  cbn. intros [->|H]; [by left | right; by apply IH].
Qed.

Lemma In_removeTrailing (p s : jsstring) (c : N) :
  In c (removeTrailing p s) -> In c s.
Proof.
  unfold removeTrailing. destruct (endsWith s p); [|done]. apply In_firstn.
Qed.

Lemma colon_replaced (s : jsstring) :
  ~ In COLON (List.map (fun c => if c =? COLON then HYPHEN else c) s).
Proof.
  induction s as [|x s IH]; [by intros []|].
  cbn [List.map]. intros [H|H]; [|by apply IH].
  destruct (N.eqb_spec x COLON); [discriminate H | congruence].
Qed.

(** X12: a timestamped file name always ends in [.csv], whatever the
    configured name and the instant, and the timestamp brings no colon
    into it: the final name holds a colon only if the configured name
    does. *)
Theorem X12_timestamped_name_shape (o : CSVExportOptions) (w : World) :
  addTimestamp o = Some true ->
  endsWith (fst (finalFilename o w)) (lit ".csv") = true
  /\ (In COLON (fst (finalFilename o w)) ->
      In COLON (default (lit "export.csv") (filename o))).
Proof.
  intros Ha. rewrite (finalFilename_timestamp _ _ Ha). split.
  - apply endsWith_spec. eexists. by rewrite !app_assoc.
  - intros H. apply in_app_or in H as [H|H];
      [by apply In_removeTrailing in H|].
    apply in_app_or in H as [H|H]; [by destruct H as [H|[]]|].
    apply in_app_or in H as [H|H]; [by apply colon_replaced in H|].
    vm_compute in H. intuition discriminate.
Qed.

Lemma X12_timestamped_name_shape_witness :
  endsWith (fst (finalFilename optionsWithTimestamp (worldAt year10000)))
           (lit ".csv") = true.
Proof.
  apply (X12_timestamped_name_shape optionsWithTimestamp (worldAt year10000)).
  reflexivity.
Defined.

(** X13: under timestamping exactly one trailing [.csv] is dropped before
    the stamp is added, so a name without the extension and the same name
    with it give the same final name at the same instant. *)
Theorem X13_extension_optional (o1 o2 : CSVExportOptions) (w : World)
    (base : jsstring) :
  addTimestamp o1 = Some true -> addTimestamp o2 = Some true ->
  filename o1 = Some base -> filename o2 = Some (base ++ lit ".csv") ->
  (forall b, base <> b ++ lit ".csv") ->
  fst (finalFilename o1 w) = fst (finalFilename o2 w).
Proof.
  intros Ha1 Ha2 Hf1 Hf2 Hb.
  rewrite (finalFilename_timestamp _ _ Ha1), (finalFilename_timestamp _ _ Ha2).
  rewrite Hf1, Hf2. cbn [default from_option id].
  change (default (lit "export.csv") (Some base)) with base.
  change (default (lit "export.csv") (Some (base ++ lit ".csv")))
    with (base ++ lit ".csv").
  by rewrite removeTrailing_app, removeTrailing_none.
Qed.

Lemma X13_extension_optional_witness :
  fst (finalFilename optionsWithTimestampNoExtension (worldAt christmas2023))
  = fst (finalFilename optionsWithTimestamp (worldAt christmas2023)).
Proof.
  apply (X13_extension_optional optionsWithTimestampNoExtension
           optionsWithTimestamp (worldAt christmas2023) (lit "test"));
    try reflexivity.
  intros [|x b] H.
  - vm_compute in H. discriminate H.
  - apply (f_equal (@length N)) in H.
    rewrite length_app in H. cbn in H. lia.
Defined.


